(** * Audio quality scoring and refinement pipeline

    A shallow embedding of [audio_quality_analyzer.py] and
    [audio_refinement_processor.py].

    Number model.  The Python code computes on IEEE doubles (Python [float],
    numpy [float64]).  Here every such value is a rational number ([Q]) and
    every arithmetic operation is exact: a decimal literal of the source
    ([0.1], [1e-10], ...) denotes its decimal value, and rounding, infinities
    and NaN are outside the model.  Integer values (lengths, indices, sample
    rates) are [nat] or [Z].

    Library model.  [librosa], [numpy], [soundfile] and [shutil] are not code
    of the repository.  What the repository's functions need from them is
    either written out from their documented behaviour
    ([numpy.percentile], [numpy.mean], [librosa.util.frame], array slicing)
    or taken through the interface [Librosa] (features that need a square
    root or a Fourier transform). *)

From Stdlib Require Import Ascii QArith Qround Qabs ZArith List Bool Lia Lqa Permutation Sorted.
From stdpp Require Import base option strings pretty gmap.
Import ListNotations.

Local Open Scope Q_scope.

(** ** Numbers as the sources use them *)

Module Num.

(** [x < y], [x <= y], [x > y], [x >= y] on floats, as booleans. *)
Definition ltb (x y : Q) : bool := negb (Qle_bool y x).
Definition leb (x y : Q) : bool := Qle_bool x y.
Definition gtb (x y : Q) : bool := ltb y x.
Definition geb (x y : Q) : bool := leb y x.

(** Python's [int(x)] on a float: truncation toward zero. *)
Definition py_int (x : Q) : Z := Z.quot (Qnum x) (Zpos (Qden x)).


Definition of_nat (n : nat) : Q := inject_Z (Z.of_nat n).

(** [np.sum] and [np.mean] of a one-dimensional array.  The mean of an
    empty array is NaN in numpy; here it is [0 / 0], which [Q] evaluates
    to [0]: callers that can reach it are pointed out where they occur. *)
Definition sum (l : list Q) : Q := fold_left Qplus l 0.
Definition mean (l : list Q) : Q := sum l / of_nat (length l).

(** Insertion sort, ascending: the order statistics [np.percentile]
    interpolates between. *)
Fixpoint insert_asc (x : Q) (l : list Q) : list Q :=
  match l with
  | [] => [x]
  | y :: l' => if leb x y then x :: l else y :: insert_asc x l'
  end.
Definition sort_asc (l : list Q) : list Q := fold_right insert_asc [] l.

(** [np.percentile(a, q)] with the default (linear) method: the virtual
    index is [q/100 * (n - 1)], and the result interpolates linearly
    between the two neighbouring order statistics.  An empty array has no
    percentile ([None]). *)
Definition percentile (a : list Q) (q : Q) : option Q :=
  match a with
  | [] => None
  | _ =>
      let s := sort_asc a in
      let v := q / 100 * of_nat (length a - 1) in
      let lo := Z.to_nat (Qfloor v) in
      let hi := Nat.min (lo + 1) (length a - 1) in
      let g := v - of_nat lo in
      let a_lo := nth lo s 0 in
      let a_hi := nth hi s 0 in
      Some (a_lo + (a_hi - a_lo) * g)
  end.

(** [np.max(np.abs(y))]: raises on an empty array. *)
Definition peak_abs (y : list Q) : option Q :=
  match y with
  | [] => None
  | x :: l => Some (fold_left (fun m v => if ltb m (Qabs v) then Qabs v else m) l (Qabs x))
  end.

(** [a[mask]]: boolean-mask indexing. *)
Fixpoint select_mask (a : list Q) (mask : list bool) : list Q :=
  match a, mask with
  | x :: a', b :: mask' => if b then x :: select_mask a' mask' else select_mask a' mask'
  | _, _ => []
  end.

(** [np.argmax] of a boolean array: the index of the first [True], and [0]
    when there is none. *)
Fixpoint argmax_bool (m : list bool) : nat :=
  match m with
  | [] => 0
  | true :: _ => 0
  | false :: m' =>
      if existsb (fun b => b) m' then S (argmax_bool m') else 0
  end.

(** [a[i:j]] for [0 <= i], [0 <= j]. *)
Definition slice {A} (a : list A) (i j : nat) : list A := firstn (j - i) (skipn i a).

(** [a[i:j]] for any integers: a negative index counts from the end, and
    both ends are clipped to the array. *)
Definition py_slice {A} (a : list A) (i j : Z) : list A :=
  let n := Z.of_nat (length a) in
  let norm k := if (k <? 0)%Z then Z.max 0 (n + k) else Z.min k n in
  slice a (Z.to_nat (norm i)) (Z.to_nat (norm j)).

(** [range(n)] *)
Definition py_range (n : Z) : list Z := map Z.of_nat (seq 0 (Z.to_nat n)).

(** [librosa.util.frame(y, frame_length, hop_length)]: the frames
    [y[i*hop : i*hop + frame_length]] for [i] up to
    [(len(y) - frame_length) // hop]; raises [ParameterError] when [y]
    is shorter than one frame or the hop is not positive. *)
Definition frame (y : list Q) (frame_length hop_length : nat)
    : option (list (list Q)) :=
  if (length y <? frame_length)%nat then None
  else if (hop_length <? 1)%nat then None
  else Some (map (fun i => slice y (i * hop_length) (i * hop_length + frame_length))
                 (seq 0 (1 + (length y - frame_length) / hop_length))).

(** [np.sum(frames ** 2, axis=0)] *)
Definition energy_of_frames (frames : list (list Q)) : list Q :=
  map (fun f => sum (map (fun v => v * v) f)) frames.

End Num.

(** ** Files and the libraries' interface *)

(** A file on disk: an audio file holds the samples and the sample rate
    that [librosa.load(path, sr=None, mono=True)] decodes from it, any other
    file makes the decoder raise.  [st_size] is its size in bytes. *)
Inductive file :=
| Audio (y : list Q) (sr : Z) (st_size : Z)
| Undecodable (st_size : Z).

Definition file_size (f : file) : Z :=
  match f with Audio _ _ n => n | Undecodable n => n end.

(** What the repository takes from [librosa], [numpy], [soundfile] and
    [pathlib] and cannot be written with rationals and lists: an absent
    result ([None]) is a raised exception. *)
Class Librosa := {
  (** [Path(p).name] and [Path(p).stem] *)
  path_name : string -> string;
  path_stem : string -> string;
  (** [librosa.feature.rms(y=y)[0]] and the other per-frame features *)
  feature_rms : list Q -> option (list Q);
  feature_zero_crossing_rate : list Q -> option (list Q);
  feature_spectral_centroid : list Q -> Z -> option (list Q);
  feature_spectral_rolloff : list Q -> Z -> option (list Q);
  feature_spectral_bandwidth : list Q -> Z -> option (list Q);
  (** [librosa.effects.hpss(y)] *)
  effects_hpss : list Q -> option (list Q * list Q);
  (** [np.std] *)
  np_std : list Q -> Q;
  (** [librosa.effects.trim(y, top_db=20, frame_length=2048, hop_length=512)[0]] *)
  effects_trim : list Q -> option (list Q);
  (** the spectral gate of stage 3, from [librosa.stft] to [librosa.istft] *)
  spectral_gate : list Q -> Z -> option (list Q);
  (** [librosa.resample(y, orig_sr=sr, target_sr=target_sr)] *)
  resample : list Q -> Z -> Z -> option (list Q);
  (** the size in bytes of the file [sf.write] produces *)
  encoded_size : list Q -> Z -> Z
}.

Module Fs.

(** [librosa.load(str(path), sr=None, mono=True)] *)
Definition load (fs : gmap string file) (path : string) : option (list Q * Z) :=
  match fs !! path with
  | Some (Audio y sr _) => Some (y, sr)
  | _ => None
  end.

(** [Path(path).stat().st_size] *)
Definition stat_size (fs : gmap string file) (path : string) : option Z :=
  file_size <$> fs !! path.

(** [path.exists()] *)
Definition exists_ (fs : gmap string file) (path : string) : bool :=
  bool_decide (is_Some (fs !! path)).

(** [sf.write(str(path), y, sr)]: the output directory exists (the
    processor creates it), writing succeeds, and the file decodes to the
    samples written. *)
Definition sf_write `{Librosa} (fs : gmap string file) (path : string)
    (y : list Q) (sr : Z) : gmap string file :=
  <[path := Audio y sr (encoded_size y sr)]> fs.

(** [shutil.copy(src, dst)]: raises when [src] does not exist and when
    [src] and [dst] are the same file. *)
Definition shutil_copy (fs : gmap string file) (src dst : string)
    : option (gmap string file) :=
  match fs !! src with
  | None => None
  | Some f => if bool_decide (src = dst) then None else Some (<[dst := f]> fs)
  end.

(** [path.unlink()] *)
Definition unlink (fs : gmap string file) (path : string) : gmap string file :=
  delete path fs.

End Fs.

(** ** The quality analyzer ([audio_quality_analyzer.py]) *)

(** The dictionary [metrics] that [analyze_audio_file] builds, one field per
    key. *)
Record metrics := {
  m_file : string;
  filename : string;
  sample_rate : Z;
  duration : Q;
  file_size_mb : Q;
  num_samples : nat;
  rms_mean : Q;
  rms_std : Q;
  zcr_mean : Q;
  zcr_std : Q;
  spectral_centroid_mean : Q;
  snr_estimate : Q;
  spectral_rolloff_mean : Q;
  spectral_bandwidth_mean : Q;
  harmonic_noise_ratio : Q;
  effective_duration : Q;
  silence_ratio : Q;
  quality_score : Q
}.

(** [AudioQualityAnalyzer]: the attributes of [self]. *)
Record analyzer := {
  audio_dir : string;
  results : list metrics
}.

Module Analyzer.
Import Num.

Definition frame_length : nat := 2048.
Definition hop_length : nat := 512.
Definition eps : Q := 1 # 10000000000.

(** Quality layer 2: the noise floor and the SNR estimate. *)
Definition estimate_snr (rms : list Q) : option Q :=
  energy_threshold ← percentile rms 10;
  let speech_energy :=
    select_mask rms (map (fun e => gtb e (energy_threshold * 2)) rms) in
  if (0 <? length speech_energy)%nat
  then Some (mean speech_energy / (energy_threshold + eps))
  else Some 0.

(** Quality layer 4: the harmonic-to-noise ratio, with its own handler. *)
Definition estimate_hnr `{Librosa} (y : list Q) : Q :=
  match effects_hpss y with
  | Some (y_harmonic, y_percussive) =>
      let harmonic_energy := sum (map (fun v => v * v) y_harmonic) in
      let percussive_energy := sum (map (fun v => v * v) y_percussive) in
      harmonic_energy / (percussive_energy + eps)
  | None => 1
  end.

(** Quality layer 5: silence at the start and the end.  The result is
    [(effective_duration, silence_ratio)]. *)
Definition silence_metrics (y : list Q) (sr : Z) (duration : Q) : option (Q * Q) :=
  frames ← frame y frame_length hop_length;
  let frame_energy := energy_of_frames frames in
  energy_threshold ← percentile frame_energy 20;
  let speech_frames := map (fun e => gtb e energy_threshold) frame_energy in
  if existsb (fun b => b) speech_frames then
    let speech_start :=
      of_nat (argmax_bool speech_frames * hop_length) / inject_Z sr in
    let speech_end :=
      of_nat ((length speech_frames - argmax_bool (rev speech_frames)) * hop_length)
      / inject_Z sr in
    let effective_duration := speech_end - speech_start in
    Some (effective_duration, 1 - effective_duration / duration)
  else Some (0, 1).

(** The composite score, statement by statement: [quality_score = 0.0],
    then four [if]/[elif] chains, each adding one constant. *)
Definition add_duration_score (duration : Q) (quality_score : Q) : Q :=
  if geb duration 10 then quality_score + 25
  else if geb duration 5 then quality_score + 20
  else if geb duration 3 then quality_score + 15
  else quality_score + 5.

Definition add_snr_score (snr_estimate : Q) (quality_score : Q) : Q :=
  if gtb snr_estimate 20 then quality_score + 25
  else if gtb snr_estimate 10 then quality_score + 20
  else if gtb snr_estimate 5 then quality_score + 15
  else quality_score + 5.

Definition add_clarity_score (harmonic_noise_ratio : Q) (quality_score : Q) : Q :=
  if gtb harmonic_noise_ratio 2 then quality_score + 25
  else if gtb harmonic_noise_ratio 1 then quality_score + 20
  else quality_score + 10.

Definition add_completeness_score (silence_ratio : Q) (quality_score : Q) : Q :=
  if ltb silence_ratio (1 # 10) then quality_score + 25
  else if ltb silence_ratio (3 # 10) then quality_score + 20
  else if ltb silence_ratio (1 # 2) then quality_score + 15
  else quality_score + 5.

Definition composite_score (duration snr_estimate harmonic_noise_ratio silence_ratio : Q) : Q :=
  let quality_score := 0 in
  let quality_score := add_duration_score duration quality_score in
  let quality_score := add_snr_score snr_estimate quality_score in
  let quality_score := add_clarity_score harmonic_noise_ratio quality_score in
  let quality_score := add_completeness_score silence_ratio quality_score in
  quality_score.

(** [analyze_audio_file]: the body of the [try] block in the option
    monad; the handler [except Exception: ... return None] turns every
    raised exception into the result [None], which is what the monad's
    [None] already is. *)
Definition analyze_audio_file `{Librosa} (fs : gmap string file)
    (audio_path : string) : option metrics :=
  '(y, sr) ← Fs.load fs audio_path;
  duration ← (if (sr =? 0)%Z then None
              else Some (of_nat (length y) / inject_Z sr));
  file_size ← Fs.stat_size fs audio_path;
  rms ← feature_rms y;
  zcr ← feature_zero_crossing_rate y;
  spectral_centroids ← feature_spectral_centroid y sr;
  snr_estimate ← estimate_snr rms;
  rolloff ← feature_spectral_rolloff y sr;
  bandwidth ← feature_spectral_bandwidth y sr;
  let hnr := estimate_hnr y in
  '(effective_duration, silence_ratio) ← silence_metrics y sr duration;
  Some {| m_file := audio_path;
          filename := path_name audio_path;
          sample_rate := sr;
          duration := duration;
          file_size_mb := inject_Z file_size / inject_Z (1024 * 1024);
          num_samples := length y;
          rms_mean := mean rms;
          rms_std := np_std rms;
          zcr_mean := mean zcr;
          zcr_std := np_std zcr;
          spectral_centroid_mean := mean spectral_centroids;
          snr_estimate := snr_estimate;
          spectral_rolloff_mean := mean rolloff;
          spectral_bandwidth_mean := mean bandwidth;
          harmonic_noise_ratio := hnr;
          effective_duration := effective_duration;
          silence_ratio := silence_ratio;
          quality_score :=
            composite_score duration snr_estimate hnr silence_ratio |}.

(** [list.sort(key=lambda x: x['quality_score'], reverse=True)]: a stable
    sort, highest score first; records of equal score keep their order. *)
Fixpoint insert_desc (x : metrics) (l : list metrics) : list metrics :=
  match l with
  | [] => [x]
  | y :: l' =>
      if geb (quality_score x) (quality_score y) then x :: l
      else y :: insert_desc x l'
  end.
Definition sort_by_score (l : list metrics) : list metrics :=
  fold_right insert_desc [] l.

(** The loop of [analyze_all_audio] over the files found: a file whose
    analysis is [None] is skipped, the others are appended to
    [self.results]. *)
Definition analyze_each `{Librosa} (fs : gmap string file)
    (audio_files : list string) (results : list metrics) : list metrics :=
  fold_left
    (fun results audio_file =>
       match analyze_audio_file fs audio_file with
       | Some metrics => results ++ [metrics]
       | None => results
       end)
    audio_files results.

(** [analyze_all_audio].  [dir_exists] is [self.audio_dir.exists()] and
    [audio_files] the list the ten [glob] calls collect.  The result is
    the new [self] and the returned list. *)
Definition analyze_all_audio `{Librosa} (fs : gmap string file)
    (dir_exists : bool) (audio_files : list string) (self : analyzer)
    : analyzer * list metrics :=
  if negb dir_exists then (self, [])
  else
    let results := sort_by_score (analyze_each fs audio_files (results self)) in
    ({| audio_dir := audio_dir self; results := results |}, results).

(** [filter_high_quality]: the new [self] (untouched) and the returned
    list [filtered]. *)
Definition filter_high_quality (self : analyzer)
    (min_score min_duration max_silence : Q) : analyzer * list metrics :=
  let filtered :=
    fold_left
      (fun filtered result =>
         if geb (quality_score result) min_score
            && geb (duration result) min_duration
            && leb (silence_ratio result) max_silence
         then filtered ++ [result]
         else filtered)
      (results self) [] in
  (self, filtered).

End Analyzer.

(** ** The refinement processor ([audio_refinement_processor.py]) *)

(** What a call returns: a value and the file system it leaves, or an
    exception that escapes the call. *)
Inductive outcome (A : Type) :=
| Returned (a : A) (fs : gmap string file)
| Raised (fs : gmap string file).
Arguments Returned {A} a fs.
Arguments Raised {A} fs.

(** The dictionary [process_audio_file] returns ([processing_time], a wall
    clock difference, is left out). *)
Inductive refinement_result :=
| Success (input output : string) (duration : Q) (sample_rate : Z) (file_size_mb : Q)
| Failure.

Module Refiner.
Import Num.

Definition frame_length : nat := 2048.
Definition hop_length : nat := 512.

(** [10 ** (-3 / 20)] as Python evaluates it: the double
    [0x1.6a77deae8ab8ap-1], about [0.70795]. *)
Definition target_peak : Q := 3188304370750917 # 4503599627370496.

(** The arithmetic of stage 1 on the decoded samples. *)
Definition normalize (y : list Q) : option (list Q) :=
  peak ← peak_abs y;
  if gtb peak 0
  then Some (map (fun v => v * (target_peak / peak)) y)
  else Some y.

Definition stage_1_normalize_audio `{Librosa} (fs : gmap string file)
    (input_path output_path : string) : bool * gmap string file :=
  match '(y, sr) ← Fs.load fs input_path;
        y_normalized ← normalize y;
        Some (y_normalized, sr) with
  | Some (y_normalized, sr) => (true, Fs.sf_write fs output_path y_normalized sr)
  | None => (false, fs)
  end.

Definition stage_2_remove_silence `{Librosa} (fs : gmap string file)
    (input_path output_path : string) : bool * gmap string file :=
  match '(y, sr) ← Fs.load fs input_path;
        _ ← (if (sr =? 0)%Z then None else Some tt);
        y_trimmed ← effects_trim y;
        Some (y_trimmed, sr) with
  | Some (y_trimmed, sr) => (true, Fs.sf_write fs output_path y_trimmed sr)
  | None => (false, fs)
  end.

(** Stage 3.  The handler copies the input file to the output path and
    returns [False]; an exception of the copy itself is not handled. *)
Definition stage_3_noise_reduction `{Librosa} (fs : gmap string file)
    (input_path output_path : string) : outcome bool :=
  match '(y, sr) ← Fs.load fs input_path;
        y_denoised ← spectral_gate y sr;
        Some (y_denoised, sr) with
  | Some (y_denoised, sr) =>
      Returned true (Fs.sf_write fs output_path y_denoised sr)
  | None =>
      match Fs.shutil_copy fs input_path output_path with
      | Some fs' => Returned false fs'
      | None => Raised fs
      end
  end.

Definition stage_4_resample_optimal `{Librosa} (fs : gmap string file)
    (input_path output_path : string) (target_sr : Z) : bool * gmap string file :=
  match '(y, sr) ← Fs.load fs input_path;
        if bool_decide (sr <> target_sr)
        then resample y sr target_sr
        else Some y with
  | Some y_resampled => (true, Fs.sf_write fs output_path y_resampled target_sr)
  | None => (false, fs)
  end.

(** The sliding window of stage 5: [max_energy = 0], [best_start = 0],
    then one pass over the window starts.  (With [target_frames = 0] the
    windows are empty: numpy's mean is then NaN, which is never greater than
    [max_energy], and the mean of the model is 0, which is not either.) *)
Definition best_window (frame_energy : list Q) (target_frames : Z) : Q * Z :=
  fold_left
    (fun '(max_energy, best_start) i =>
       let window_energy := mean (py_slice frame_energy i (i + target_frames)) in
       if gtb window_energy max_energy then (window_energy, i)
       else (max_energy, best_start))
    (py_range (Z.of_nat (length frame_energy) - target_frames + 1))
    (0, 0%Z).

(** [target_frames], after the clamp to the number of frames. *)
Definition window_frames (frame_energy : list Q) (sr : Z) (target_duration : Q) : Z :=
  let target_frames := py_int (target_duration * inject_Z sr / of_nat hop_length) in
  if (Z.of_nat (length frame_energy) <? target_frames)%Z
  then Z.of_nat (length frame_energy)
  else target_frames.

(** [start_sample] and [end_sample], after the shift at the end of the
    buffer. *)
Definition segment_bounds (n : nat) (sr : Z) (target_duration : Q) (best_start : Z)
    : Z * Z :=
  let start_sample := (best_start * Z.of_nat hop_length)%Z in
  let end_sample := (start_sample + py_int (target_duration * inject_Z sr))%Z in
  if (Z.of_nat n <? end_sample)%Z
  then ((Z.of_nat n - py_int (target_duration * inject_Z sr))%Z, Z.of_nat n)
  else (start_sample, end_sample).

(** Stage 5 on a buffer longer than [target_duration]. *)
Definition extract_best_segment (y : list Q) (sr : Z) (target_duration : Q)
    : option (list Q) :=
  frames ← frame y frame_length hop_length;
  let frame_energy := energy_of_frames frames in
  let target_frames := window_frames frame_energy sr target_duration in
  let best_start := snd (best_window frame_energy target_frames) in
  let '(start_sample, end_sample) :=
    segment_bounds (length y) sr target_duration best_start in
  Some (py_slice y start_sample end_sample).

Definition stage_5_extract_best_segment `{Librosa} (fs : gmap string file)
    (input_path output_path : string) (target_duration : Q)
    : bool * gmap string file :=
  match Fs.load fs input_path with
  | None => (false, fs)
  | Some (y, sr) =>
      if (sr =? 0)%Z then (false, fs)
      else
        let duration := of_nat (length y) / inject_Z sr in
        if leb duration target_duration then
          match Fs.shutil_copy fs input_path output_path with
          | Some fs' => (true, fs')
          | None => (false, fs)
          end
        else
          match extract_best_segment y sr target_duration with
          | Some y_segment => (true, Fs.sf_write fs output_path y_segment sr)
          | None => (false, fs)
          end
  end.

(** [self.output_dir / name] *)
Definition in_dir (output_dir name : string) : string :=
  output_dir +:+ "/" +:+ name.

(** The cleanup loop over the four intermediate files. *)
Definition cleanup (fs : gmap string file) (stage_files : list string)
    (final_path : string) : gmap string file :=
  fold_left
    (fun fs stage_file =>
       if Fs.exists_ fs stage_file && negb (bool_decide (stage_file = final_path))
       then Fs.unlink fs stage_file
       else fs)
    stage_files fs.

(** The paths of the intermediate files and of the final file. *)
Definition stage_path `{Librosa} (output_dir prefix input_path : string) : string :=
  in_dir output_dir (prefix +:+ path_stem input_path +:+ ".wav").

Definition final_path `{Librosa} (output_dir input_path : string)
    (output_name : option string) : string :=
  in_dir output_dir
    (match output_name with
     | Some name => name
     | None => "refined_" +:+ path_stem input_path +:+ ".wav"
     end).

(** The body of [process_audio_file] once the five paths are known.
    [success &= stage(...)] evaluates the stage whatever [success] is, so
    the five stages always run, in order; the stage-4 target rate and the
    stage-5 duration are the defaults, 22050 Hz and 15 s. *)
Definition run_stages `{Librosa} (fs : gmap string file)
    (input_path stage1_path stage2_path stage3_path stage4_path final_path : string)
    : outcome refinement_result :=
  let success := true in
  let '(ok1, fs) := stage_1_normalize_audio fs input_path stage1_path in
  let success := success && ok1 in
  let '(ok2, fs) := stage_2_remove_silence fs stage1_path stage2_path in
  let success := success && ok2 in
  match stage_3_noise_reduction fs stage2_path stage3_path with
  | Raised fs => Raised fs
  | Returned ok3 fs =>
      let success := success && ok3 in
      let '(ok4, fs) := stage_4_resample_optimal fs stage3_path stage4_path 22050 in
      let success := success && ok4 in
      let '(ok5, fs) := stage_5_extract_best_segment fs stage4_path final_path 15 in
      let success := success && ok5 in
      let fs := cleanup fs [stage1_path; stage2_path; stage3_path; stage4_path]
                  final_path in
      if success && Fs.exists_ fs final_path then
        match Fs.load fs final_path, Fs.stat_size fs final_path with
        | Some (y_final, sr_final), Some size =>
            if (sr_final =? 0)%Z then Raised fs
            else
              Returned
                (Success input_path final_path
                   (of_nat (length y_final) / inject_Z sr_final)
                   sr_final
                   (inject_Z size / inject_Z (1024 * 1024)))
                fs
        | _, _ => Raised fs
        end
      else Returned Failure fs
  end.

Definition process_audio_file `{Librosa} (output_dir : string)
    (fs : gmap string file) (input_path : string) (output_name : option string)
    : outcome refinement_result :=
  run_stages fs input_path
    (stage_path output_dir "stage1_norm_" input_path)
    (stage_path output_dir "stage2_trimmed_" input_path)
    (stage_path output_dir "stage3_denoised_" input_path)
    (stage_path output_dir "stage4_resampled_" input_path)
    (final_path output_dir input_path output_name).

(** [f"refined_top{i}_{Path(result['file']).stem}.wav"] *)
Definition top_name `{Librosa} (i : nat) (file : string) : string :=
  "refined_top" +:+ pretty i +:+ "_" +:+ path_stem file +:+ ".wav".

(** The loop of [process_high_quality_files] from rank [i] on, [processed]
    being the list built so far.  No handler surrounds the call of
    [process_audio_file]: an exception that escapes it ends the loop. *)
Fixpoint process_each `{Librosa} (output_dir : string) (fs : gmap string file)
    (i : nat) (quality_results : list metrics) (processed : list refinement_result)
    : outcome (list refinement_result) :=
  match quality_results with
  | [] => Returned processed fs
  | result :: rest =>
      match process_audio_file output_dir fs (m_file result)
              (Some (top_name i (m_file result))) with
      | Raised fs => Raised fs
      | Returned result_data fs =>
          process_each output_dir fs (S i) rest
            (match result_data with
             | Success _ _ _ _ _ => processed ++ [result_data]
             | Failure => processed
             end)
      end
  end.

(** [process_high_quality_files]: the loop over
    [enumerate(quality_results[:top_n], 1)]. *)
Definition process_high_quality_files `{Librosa} (output_dir : string)
    (fs : gmap string file) (quality_results : list metrics) (top_n : Z)
    : outcome (list refinement_result) :=
  process_each output_dir fs 1 (py_slice quality_results 0 top_n) [].

End Refiner.

(** ** The selection step of the pipeline ([refine_and_clone.py]) *)

Module Pipeline.
Import Num Analyzer.

(** [0.4] as Python reads it: the double [0x1.999999999999ap-2]. *)
Definition max_silence : Q := 3602879701896397 # 9007199254740992.

(** Step 2 of [main]: the records that pass the filter or, when none
    does, the first five of [quality_results]. *)
Definition high_quality (analyzer : analyzer) (quality_results : list metrics)
    : list metrics :=
  match snd (filter_high_quality analyzer 60 5 max_silence) with
  | [] => py_slice quality_results 0 5
  | high_quality => high_quality
  end.

End Pipeline.

(** ** The specification's vocabulary *)

Module Buckets.
Import Num.

(** The four terms as the specification lists them: each is the value of
    the first threshold, in descending order, that the input passes. *)
Definition duration_bucket (d : Q) : Z :=
  if Qle_bool 10 d then 25 else if Qle_bool 5 d then 20 else if Qle_bool 3 d then 15 else 5.
Definition snr_bucket (s : Q) : Z :=
  if ltb 20 s then 25 else if ltb 10 s then 20 else if ltb 5 s then 15 else 5.
Definition harmonic_bucket (h : Q) : Z :=
  if ltb 2 h then 25 else if ltb 1 h then 20 else 10.
Definition silence_bucket (r : Q) : Z :=
  if ltb r (1 # 10) then 25 else if ltb r (3 # 10) then 20 else if ltb r (1 # 2) then 15 else 5.

End Buckets.

Module Spec.
Import Num.

(** The frames the SNR estimate counts as speech: energy strictly above
    twice the noise floor. *)
Definition speech_frames (noise_floor : Q) (rms : list Q) : list Q :=
  List.filter (fun e => ltb (2 * noise_floor) e) rms.

(** The index of the first and of the last [true] of a boolean series. *)
Fixpoint first_index (m : list bool) : option nat :=
  match m with
  | [] => None
  | b :: m' => if b then Some O else S <$> first_index m'
  end.

Fixpoint last_index (m : list bool) : option nat :=
  match m with
  | [] => None
  | b :: m' =>
      match last_index m' with
      | Some i => Some (S i)
      | None => if b then Some O else None
      end
  end.

(** The records a filter with the three criteria keeps. *)
Definition passes (min_score min_duration max_silence : Q) (r : metrics) : Prop :=
  min_score <= quality_score r /\ min_duration <= duration r
  /\ silence_ratio r <= max_silence.

(** The same three comparisons as a test on one record. *)
Definition keeps (min_score min_duration max_silence : Q) (r : metrics) : bool :=
  geb (quality_score r) min_score && geb (duration r) min_duration
  && leb (silence_ratio r) max_silence.

(** The speech mask of the silence metrics: per-frame energy of the frames
    of 2048 samples every 512 samples, compared with its 20th percentile. *)
Definition silence_mask (y : list Q) : option (list bool) :=
  frames ← frame y 2048 512;
  energy_threshold ← percentile (energy_of_frames frames) 20;
  Some (map (fun e => ltb energy_threshold e) (energy_of_frames frames)).

(** The ways an exception reaches the handler of [analyze_audio_file]: the
    decoder, the division by the sample rate, a feature of the library, the
    percentile of an empty series, or the framing of the buffer.  (The
    harmonic/percussive decomposition is not among them: an exception it
    raises stops at its own handler.) *)
Inductive raises `{Librosa} (fs : gmap string file) (p : string) : Prop :=
| raises_decode :
    Fs.load fs p = None -> raises fs p
| raises_zero_rate y :
    Fs.load fs p = Some (y, 0%Z) -> raises fs p
| raises_rms y sr :
    Fs.load fs p = Some (y, sr) -> feature_rms y = None -> raises fs p
| raises_zcr y sr :
    Fs.load fs p = Some (y, sr) -> feature_zero_crossing_rate y = None -> raises fs p
| raises_centroid y sr :
    Fs.load fs p = Some (y, sr) -> feature_spectral_centroid y sr = None -> raises fs p
| raises_percentile y sr :
    Fs.load fs p = Some (y, sr) -> feature_rms y = Some [] -> raises fs p
| raises_rolloff y sr :
    Fs.load fs p = Some (y, sr) -> feature_spectral_rolloff y sr = None -> raises fs p
| raises_bandwidth y sr :
    Fs.load fs p = Some (y, sr) -> feature_spectral_bandwidth y sr = None -> raises fs p
| raises_frame y sr :
    Fs.load fs p = Some (y, sr) -> frame y 2048 512 = None -> raises fs p.

(** A sample, or an energy, that is zero. *)
Definition is_zero (v : Q) : Prop := v == 0.

(** The per-frame energy of stage 5: the sum of squares of each frame of
    2048 samples, one frame every 512 samples. *)
Definition frame_energy (y : list Q) : list Q :=
  match frame y 2048 512 with
  | Some frames => energy_of_frames frames
  | None => []
  end.

(** The mean frame energy of the window of [target_frames] frames that
    starts at frame [i]. *)
Definition window_mean (frame_energy : list Q) (target_frames : Z) (i : Z) : Q :=
  mean (py_slice frame_energy i (i + target_frames)).

(** A list of records in descending order of score. *)
Definition by_score_desc (l : list metrics) : Prop :=
  StronglySorted (fun a b => quality_score b <= quality_score a) l.

(** The records of one score, in the order of the list. *)
Definition of_score (c : Q) (l : list metrics) : list metrics :=
  List.filter (fun r => Qeq_bool (quality_score r) c) l.

(** The scan of [best_window] over the window starts [0 .. k-1], for any
    score [w] of a window start. *)
Definition scan (w : Z -> Q) (k : nat) : Q * Z :=
  fold_left
    (fun '(max_energy, best_start) i =>
       if gtb (w i) max_energy then (w i, i) else (max_energy, best_start))
    (map Z.of_nat (seq 0 k)) (0, 0%Z).

(** The three facts about one stage: a failure writes nothing, no path but
    the output is ever written, and a success leaves an audio file at the
    output path. *)
Definition writes_only_output (fs : gmap string file) (output_path : string)
    (r : bool * gmap string file) : Prop :=
  (fst r = false -> snd r = fs)
  /\ (forall p, p <> output_path -> snd r !! p = fs !! p)
  /\ (fst r = true -> exists y sr n, snd r !! output_path = Some (Audio y sr n)).

(** Whether the character [c] occurs in [s]. *)
Fixpoint occurs (c : Ascii.ascii) (s : string) : bool :=
  match s with
  | EmptyString => false
  | String c' s' => bool_decide (c' = c) || occurs c s'
  end.

(** The records of a list with their ranks, counted from [i]. *)
Definition ranked (i : nat) (l : list metrics) : list (nat * metrics) :=
  combine (seq i (length l)) l.

(** [res] reports the refinement of the record of rank [i], and the file it
    names is in [fs] as reported: at 22050 Hz and no longer than 15 s. *)
Definition reports `{Librosa} (output_dir : string) (fs : gmap string file)
    (res : refinement_result) (ir : nat * metrics) : Prop :=
  let output := Refiner.in_dir output_dir (Refiner.top_name (fst ir) (m_file (snd ir))) in
  exists y n,
    res = Success (m_file (snd ir)) output
            (of_nat (length y) / inject_Z 22050) 22050
            (inject_Z n / inject_Z (1024 * 1024))
    /\ fs !! output = Some (Audio y 22050 n)
    /\ of_nat (length y) / inject_Z 22050 <= 15.

(** The four prefixes of the intermediate files. *)
Definition stage_prefixes : list string :=
  ["stage1_norm_"; "stage2_trimmed_"; "stage3_denoised_"; "stage4_resampled_"].

End Spec.

(** ** Worked inputs *)

Module Fixture.
Import Num.

(** A stand-in for the libraries in the worked examples: one feature value
    per hop of 512 samples, decompositions and trimming that hand the
    buffer back, and a spectral gate that fails when [gate_ok] is off. *)
Definition per_hop (y : list Q) : list Q :=
  map (fun i => Qabs (nth (i * 512) y 0)) (seq 0 (1 + length y / 512)).

Definition backend (gate_ok : bool) : Librosa := {|
  path_name := fun p => p;
  path_stem := fun p => p;
  feature_rms := fun y => Some (per_hop y);
  feature_zero_crossing_rate := fun y => Some (per_hop y);
  feature_spectral_centroid := fun y _ => Some (per_hop y);
  feature_spectral_rolloff := fun y _ => Some (per_hop y);
  feature_spectral_bandwidth := fun y _ => Some (per_hop y);
  effects_hpss := fun y => Some (y, y);
  np_std := fun _ => 0;
  effects_trim := fun y => Some y;
  spectral_gate := fun y _ => if gate_ok then Some y else None;
  resample := fun y _ _ => Some y;
  encoded_size := fun y _ => (44 + 2 * Z.of_nat (length y))%Z
|}.

(** The same stand-in with a harmonic/percussive decomposition that
    raises. *)
Definition backend_without_hpss : Librosa := {|
  path_name := fun p => p;
  path_stem := fun p => p;
  feature_rms := fun y => Some (per_hop y);
  feature_zero_crossing_rate := fun y => Some (per_hop y);
  feature_spectral_centroid := fun y _ => Some (per_hop y);
  feature_spectral_rolloff := fun y _ => Some (per_hop y);
  feature_spectral_bandwidth := fun y _ => Some (per_hop y);
  effects_hpss := fun _ => None;
  np_std := fun _ => 0;
  effects_trim := fun y => Some y;
  spectral_gate := fun y _ => Some y;
  resample := fun y _ _ => Some y;
  encoded_size := fun y _ => (44 + 2 * Z.of_nat (length y))%Z
|}.

(** A silent clip of one frame, a clip shorter than one frame, and a clip
    of two frames whose last hop is loud. *)
Definition silent_clip : list Q := repeat 0 2048.
Definition short_clip : list Q := repeat 0 100.
Definition late_burst : list Q := repeat 0 2048 ++ repeat 1 512.

(** Three loud samples at 22050 Hz. *)
Definition loud_clip : list Q := [1 # 2; -(1 # 2); 1 # 4].

(** 3072 samples at 1000 Hz: silence, then a loud second. *)
Definition long_clip : list Q := repeat 0 2048 ++ repeat 1 1024.

(** The files of the worked examples. *)
Definition disk : gmap string file :=
  <["long" := Audio long_clip 1000 6188]>
  (<["silent" := Audio silent_clip 22050 4140]>
  (<["short" := Audio short_clip 22050 244]>
  (<["empty" := Audio [] 22050 44]>
  (<["loud" := Audio loud_clip 22050 50]>
  (<["broken" := Undecodable 17]> ∅))))).

End Fixture.

(** * Properties *)

(** ** Comparisons and sums *)

Section NumFacts.
Import Num.

Lemma ltb_lt x y : ltb x y = true <-> x < y.
Proof.
  unfold ltb. rewrite negb_true_iff, <- not_true_iff_false, Qle_bool_iff.
  split; [apply Qnot_le_lt | apply Qlt_not_le].
Qed.

Lemma ltb_ge x y : ltb x y = false <-> y <= x.
Proof. unfold ltb. rewrite negb_false_iff. apply Qle_bool_iff. Qed.

Lemma leb_le x y : leb x y = true <-> x <= y.
Proof. apply Qle_bool_iff. Qed.

Lemma geb_ge x y : geb x y = true <-> y <= x.
Proof. apply Qle_bool_iff. Qed.

Lemma gtb_gt x y : gtb x y = true <-> y < x.
Proof. apply ltb_lt. Qed.

End NumFacts.

(** ** The composite score *)

Section Score.
Import Num Analyzer Buckets.

Ltac by_buckets :=
  unfold composite_score, add_duration_score, add_snr_score, add_clarity_score,
    add_completeness_score, duration_bucket, snr_bucket, harmonic_bucket,
    silence_bucket, geb, gtb, leb;
  repeat match goal with
         | |- context [if ?b then _ else _] => destruct b
         end.

Lemma composite_score_buckets d s h r :
  composite_score d s h r
  = inject_Z (duration_bucket d + snr_bucket s + harmonic_bucket h + silence_bucket r).
Proof. by_buckets; reflexivity. Qed.

Lemma composite_score_bounds d s h r :
  25 <= composite_score d s h r /\ composite_score d s h r <= 100.
Proof. by_buckets; split; vm_compute; discriminate. Qed.

(** C1.  For every input the composite score is the sum of the four
    bucket terms that the fixed thresholds select (duration, SNR estimate,
    harmonic/noise ratio, silence ratio) and lies between 20 and 100
    inclusive; the input (11 s, 25, 2.5, 0.05) scores exactly 100 and the
    input (2 s, 1, 0.5, 0.9) scores exactly 25. *)
Theorem composite_score_is_bucket_sum :
  (forall d s h r,
      composite_score d s h r
      = inject_Z (duration_bucket d + snr_bucket s + harmonic_bucket h
                  + silence_bucket r)
      /\ 20 <= composite_score d s h r /\ composite_score d s h r <= 100)
  /\ composite_score 11 25 (25 # 10) (5 # 100) = 100
  /\ composite_score 2 1 (5 # 10) (9 # 10) = 25.
Proof.
  split; [| split; reflexivity].
  intros d s h r. split; [apply composite_score_buckets |].
  destruct (composite_score_bounds d s h r) as [Hlo Hhi].
  split; [| exact Hhi].
  apply Qle_trans with 25; [vm_compute; discriminate | exact Hlo].
Qed.

(** C2, the claim as stated fails: no input scores 20, the lowest
    harmonic term being 10, not 5. *)
Lemma score_20_is_not_attained :
  (forall d s h r, 25 <= composite_score d s h r)
  /\ ~ (exists d s h r, composite_score d s h r == 20).
Proof.
  split; [intros; apply composite_score_bounds |].
  intros (d & s & h & r & E).
  destruct (composite_score_bounds d s h r) as [Hlo _].
  rewrite E in Hlo. revert Hlo. vm_compute. intros Hlo; apply Hlo; reflexivity.
Qed.

(** C2, amended.  The values the composite score takes range over exactly
    [25, 100]: the minimum is the sum of the lowest buckets, 5 + 5 + 10 + 5
    = 25, the maximum is 100, both are attained, and the score is the
    plain sum of the four buckets with nothing applied to it. *)
Theorem composite_score_range :
  (forall d s h r,
      25 <= composite_score d s h r /\ composite_score d s h r <= 100
      /\ composite_score d s h r
         = inject_Z (duration_bucket d + snr_bucket s + harmonic_bucket h
                     + silence_bucket r))
  /\ (exists d s h r, composite_score d s h r = 25)
  /\ (exists d s h r, composite_score d s h r = 100)
  /\ (duration_bucket 0 + snr_bucket 0 + harmonic_bucket 0 + silence_bucket 1 = 25)%Z.
Proof.
  split; [| split; [| split]].
  - intros d s h r. destruct (composite_score_bounds d s h r).
    repeat split; trivial. apply composite_score_buckets.
  - exists 0, 0, 0, 1. reflexivity.
  - exists 10, 21, 3, 0. reflexivity.
  - reflexivity.
Qed.

End Score.

(** ** Filtering the ranked records *)

Section Filter.
Import Num Analyzer Spec.

Lemma keeps_passes a b c r : keeps a b c r = true <-> passes a b c r.
Proof.
  unfold keeps, passes. rewrite !andb_true_iff, !geb_ge, leb_le. tauto.
Qed.

Lemma append_loop (P : metrics -> bool) l acc :
  fold_left (fun filtered result => if P result then filtered ++ [result] else filtered)
    l acc
  = acc ++ List.filter P l.
Proof.
  revert acc. induction l as [| x l IH]; intros acc; simpl.
  - symmetry. apply app_nil_r.
  - rewrite IH. destruct (P x); [| reflexivity].
    rewrite <- app_assoc. reflexivity.
Qed.

Lemma filter_sublist (P : metrics -> bool) l : sublist (List.filter P l) l.
Proof.
  induction l as [| x l IH]; simpl; [constructor |].
  destruct (P x); constructor; exact IH.
Qed.

(** C9.  For every collection of records and every criteria,
    [filter_high_quality] returns exactly the records with quality_score
    >= min_score, duration >= min_duration and silence_ratio <=
    max_silence: a new list, in the input's relative order, the analyzer's
    own collection being left as it was. *)
Theorem filter_high_quality_exact self min_score min_duration max_silence :
  fst (filter_high_quality self min_score min_duration max_silence) = self
  /\ snd (filter_high_quality self min_score min_duration max_silence)
     = List.filter (keeps min_score min_duration max_silence) (results self)
  /\ (forall r,
         In r (snd (filter_high_quality self min_score min_duration max_silence))
         <-> In r (results self) /\ passes min_score min_duration max_silence r)
  /\ sublist (snd (filter_high_quality self min_score min_duration max_silence))
       (results self).
Proof.
  assert (E : snd (filter_high_quality self min_score min_duration max_silence)
              = List.filter (keeps min_score min_duration max_silence) (results self)).
  { unfold filter_high_quality; simpl.
    rewrite (append_loop (keeps min_score min_duration max_silence)). reflexivity. }
  split; [reflexivity |]. split; [exact E |]. rewrite E. split.
  - intros r. rewrite filter_In, keeps_passes. reflexivity.
  - apply filter_sublist.
Qed.

End Filter.

(** ** The SNR estimate *)

Section SNR.
Import Num Analyzer Spec.

Lemma select_mask_filter (f : Q -> bool) l :
  select_mask l (map f l) = List.filter f l.
Proof.
  induction l as [| x l IH]; simpl; [reflexivity |].
  destruct (f x); rewrite IH; reflexivity.
Qed.

Lemma speech_mask nf rms :
  select_mask rms (map (fun e => gtb e (nf * 2)) rms) = speech_frames nf rms.
Proof.
  rewrite select_mask_filter. unfold speech_frames.
  apply filter_ext. intros e. unfold gtb, ltb.
  rewrite (Qmult_comm nf 2). reflexivity.
Qed.

(** C3.  For every per-frame RMS series with noise floor [nf], its 10th
    percentile: the speech frames are the frames with energy strictly
    greater than 2 x nf; if there is at least one, the SNR estimate is
    mean(speech frames) / (nf + 1e-10), and otherwise it is 0.0. *)
Theorem estimate_snr_spec (rms : list Q) (nf : Q) :
  percentile rms 10 = Some nf ->
  (forall e, In e (speech_frames nf rms) <-> In e rms /\ 2 * nf < e)
  /\ estimate_snr rms
     = Some (match speech_frames nf rms with
             | [] => 0
             | _ :: _ => mean (speech_frames nf rms) / (nf + (1 # 10000000000))
             end).
Proof.
  intros Hp. split.
  - intros e. unfold speech_frames. rewrite filter_In, ltb_lt. reflexivity.
  - unfold estimate_snr. rewrite Hp. simpl. rewrite speech_mask.
    destruct (speech_frames nf rms); reflexivity.
Qed.

(** The series 1, 1, 1, 4, 6: the noise floor is 1 and the speech frames
    are 4 and 6. *)
Lemma estimate_snr_spec_witness :
  percentile [1; 1; 1; 4; 6] 10 = Some (1 + (1 - 1) * (10 / 100 * of_nat 4 - of_nat 0))
  /\ estimate_snr [1; 1; 1; 4; 6]
     = Some (mean [4; 6]
             / (1 + (1 - 1) * (10 / 100 * of_nat 4 - of_nat 0) + (1 # 10000000000))).
Proof.
  split; [reflexivity |].
  exact (proj2 (estimate_snr_spec [1; 1; 1; 4; 6] _ eq_refl)).
Defined.

End SNR.

(** ** Silence at the start and the end *)

Section Silence.
Import Num Analyzer Spec.

Lemma first_index_lt m i : first_index m = Some i -> (i < length m)%nat.
Proof.
  revert i. induction m as [| b m IH]; intros i; simpl; [discriminate |].
  destruct b; [intros [= <-]; lia |].
  destruct (first_index m) as [k |]; simpl; [| discriminate].
  intros [= <-]. specialize (IH k eq_refl). lia.
Qed.

Lemma first_index_spec m i :
  first_index m = Some i ->
  nth i m false = true /\ forall j, (j < i)%nat -> nth j m false = false.
Proof.
  revert i. induction m as [| b m IH]; intros i; simpl; [discriminate |].
  destruct b.
  - intros [= <-]. split; [reflexivity | intros j Hj; lia].
  - destruct (first_index m) as [k |]; simpl; [| discriminate].
    intros [= <-]. destruct (IH k eq_refl) as [Hk Hlt]. split; [exact Hk |].
    intros [| j] Hj; [reflexivity | apply Hlt; lia].
Qed.

Lemma last_index_spec m i :
  last_index m = Some i ->
  nth i m false = true /\ forall j, (i < j)%nat -> nth j m false = false.
Proof.
  revert i. induction m as [| b m IH]; intros i; simpl; [discriminate |].
  destruct (last_index m) as [k |] eqn:E.
  - intros [= <-]. destruct (IH k eq_refl) as [Hk Hgt]. split; [exact Hk |].
    intros [| j] Hj; [lia | apply Hgt; lia].
  - destruct b; [| discriminate]. intros [= <-]. split; [reflexivity |].
    intros [| j] Hj; [lia |].
    clear IH Hj. revert j. induction m as [| c m IHm]; intros j; [destruct j; reflexivity |].
    simpl in E. destruct (last_index m); [discriminate |]. destruct c; [discriminate |].
    destruct j; [reflexivity | apply IHm; reflexivity].
Qed.

Lemma first_index_exists m :
  first_index m = None <-> existsb (fun b => b) m = false.
Proof.
  induction m as [| b m IH]; simpl; [tauto |].
  destruct b; simpl; [split; discriminate |].
  rewrite <- IH. destruct (first_index m); simpl; split; congruence.
Qed.

Lemma argmax_first m i : first_index m = Some i -> argmax_bool m = i.
Proof.
  revert i. induction m as [| b m IH]; intros i; simpl; [discriminate |].
  destruct b; [congruence |].
  destruct (first_index m) as [k |] eqn:E; simpl; [| discriminate].
  intros [= <-].
  destruct (existsb (fun b => b) m) eqn:Ex.
  - f_equal. apply IH. reflexivity.
  - apply first_index_exists in Ex. congruence.
Qed.

Lemma first_index_snoc l b :
  first_index (l ++ [b])
  = match first_index l with
    | Some i => Some i
    | None => if b then Some (length l) else None
    end.
Proof.
  induction l as [| c l IH]; simpl; [destruct b; reflexivity |].
  destruct c; [reflexivity |]. rewrite IH.
  destruct (first_index l); simpl; [reflexivity |]. destruct b; reflexivity.
Qed.

Lemma last_index_rev m :
  last_index m = (fun k => length m - 1 - k)%nat <$> first_index (rev m).
Proof.
  induction m as [| b m IH]; simpl; [reflexivity |].
  rewrite first_index_snoc, IH, length_rev.
  destruct (first_index (rev m)) as [k |] eqn:E; simpl.
  - apply first_index_lt in E. rewrite length_rev in E. f_equal. lia.
  - destruct b; simpl; [f_equal; lia | reflexivity].
Qed.

Lemma argmax_last m j :
  last_index m = Some j -> (length m - argmax_bool (rev m) = j + 1)%nat.
Proof.
  rewrite last_index_rev.
  destruct (first_index (rev m)) as [k |] eqn:E; simpl; [| discriminate].
  intros [= <-]. rewrite (argmax_first _ _ E).
  apply first_index_lt in E. rewrite length_rev in E. lia.
Qed.

Lemma first_le_last m i j :
  first_index m = Some i -> last_index m = Some j -> (i <= j)%nat.
Proof.
  intros Hi Hj. destruct (first_index_spec _ _ Hi) as [Hti _].
  destruct (last_index_spec _ _ Hj) as [_ Hgt].
  destruct (le_lt_dec i j) as [| Hlt]; [assumption |].
  rewrite (Hgt i Hlt) in Hti. discriminate.
Qed.

Lemma last_index_exists m :
  last_index m = None <-> existsb (fun b => b) m = false.
Proof.
  rewrite last_index_rev, <- first_index_exists.
  induction m as [| b m IH] using rev_ind; [simpl; tauto |].
  rewrite rev_app_distr, first_index_snoc. simpl.
  destruct b; simpl; [split; [discriminate |] |].
  - destruct (first_index m); discriminate.
  - destruct (first_index (rev m)) eqn:E; simpl in *.
    + split; [discriminate |]. destruct (first_index m); [discriminate |].
      intros _. destruct IH as [_ IH]. specialize (IH eq_refl). discriminate.
    + destruct IH as [IH _]. specialize (IH eq_refl). rewrite IH. tauto.
Qed.

Lemma of_nat_mul a b : of_nat (a * b) == of_nat a * of_nat b.
Proof. unfold of_nat. rewrite Nat2Z.inj_mul, inject_Z_mult. reflexivity. Qed.

Lemma of_nat_sub a b : (b <= a)%nat -> of_nat (a - b) == of_nat a - of_nat b.
Proof.
  intros H. unfold of_nat. rewrite Nat2Z.inj_sub by exact H.
  unfold Z.sub. rewrite inject_Z_plus, inject_Z_opp. reflexivity.
Qed.

Lemma frame_some y fl hop :
  (fl <= length y)%nat -> (1 <= hop)%nat ->
  exists frames, frame y fl hop = Some frames
                 /\ length frames = (1 + (length y - fl) / hop)%nat.
Proof.
  intros Hl Hh. unfold frame.
  destruct (Nat.ltb_spec (length y) fl); [lia |].
  destruct (Nat.ltb_spec hop 1); [lia |].
  eexists. split; [reflexivity |]. rewrite length_map, length_seq. reflexivity.
Qed.

Lemma percentile_some a q : a <> [] -> exists p, percentile a q = Some p.
Proof. destruct a; [congruence |]. intros _. eexists. reflexivity. Qed.

(** C4, the claim as stated fails.  A clip of two frames with a loud last
    hop, at 512 Hz and 5 s long: the only frame above the threshold is
    frame 1, so the first and the last speech frame coincide and the claim's
    formula gives 0 s; the code measures up to the end of the last speech
    frame and gives (2 - 1) x 512 / 512 = 1 s, hence a silence ratio of 4/5
    and not 1. *)
Lemma silence_metrics_counts_the_last_frame :
  silence_mask Fixture.late_burst = Some [false; true]
  /\ first_index [false; true] = Some 1%nat
  /\ last_index [false; true] = Some 1%nat
  /\ exists eff sil,
      silence_metrics Fixture.late_burst 512 5 = Some (eff, sil)
      /\ eff == 1 /\ sil == 4 # 5
      /\ ~ eff == of_nat (1 - 1) * of_nat 512 / inject_Z 512.
Proof.
  split; [vm_compute; reflexivity |]. split; [reflexivity |]. split; [reflexivity |].
  eexists. eexists. split; [vm_compute; reflexivity |].
  split; [reflexivity |]. split; [reflexivity |]. discriminate.
Qed.

(** C4, amended.  For every buffer at least one frame long, the silence
    metrics compare the per-frame energy (frames of 2048 samples every 512)
    with its 20th percentile; if no frame's energy exceeds that threshold
    then effective_duration = 0 and silence_ratio = 1.0; otherwise
    effective_duration = (last_speech_frame_index + 1 -
    first_speech_frame_index) x hop_length / sample_rate and silence_ratio =
    1 - effective_duration / total_duration. *)
Theorem silence_metrics_spec (y : list Q) (sr : Z) (duration : Q) :
  (2048 <= length y)%nat ->
  exists mask,
    silence_mask y = Some mask
    /\ match first_index mask, last_index mask with
       | Some first, Some last =>
           (first <= last)%nat
           /\ exists eff,
               silence_metrics y sr duration = Some (eff, 1 - eff / duration)
               /\ eff == of_nat (last + 1 - first) * of_nat 512 / inject_Z sr
       | _, _ =>
           existsb (fun b => b) mask = false
           /\ silence_metrics y sr duration = Some (0, 1)
       end.
Proof.
  intros Hlen.
  destruct (frame_some y 2048 512 Hlen ltac:(lia)) as (frames & Hf & Hn).
  destruct (percentile_some (energy_of_frames frames) 20) as [thr Hthr].
  { unfold energy_of_frames. destruct frames; [simpl in Hn; lia | discriminate]. }
  unfold silence_mask, silence_metrics, frame_length, hop_length, gtb.
  rewrite Hf. simpl. rewrite Hthr. simpl.
  set (mask := map (fun e => ltb thr e) (energy_of_frames frames)).
  exists mask. split; [reflexivity |].
  destruct (first_index mask) as [i |] eqn:Hi.
  - destruct (last_index mask) as [j |] eqn:Hj.
    + pose proof (first_le_last _ _ _ Hi Hj) as Hij. split; [exact Hij |].
      assert (Ex : existsb (fun b => b) mask = true).
      { destruct (existsb (fun b => b) mask) eqn:E; [reflexivity |].
        apply first_index_exists in E. congruence. }
      rewrite Ex. eexists. split; [reflexivity |].
      rewrite (argmax_first _ _ Hi), (argmax_last _ _ Hj).
      rewrite !of_nat_mul, of_nat_sub by lia.
      replace (j + 1)%nat with (S j) by lia. replace (j + 1)%nat with (S j) by lia.
      unfold Qdiv. ring.
    + apply last_index_exists in Hj. rewrite Hj. split; reflexivity.
  - apply first_index_exists in Hi. rewrite Hi. split; reflexivity.
Qed.

(** The clip of two frames with a loud last hop. *)
Lemma silence_metrics_spec_witness :
  exists mask,
    silence_mask Fixture.late_burst = Some mask
    /\ match first_index mask, last_index mask with
       | Some first, Some last =>
           (first <= last)%nat
           /\ exists eff,
               silence_metrics Fixture.late_burst 512 5 = Some (eff, 1 - eff / 5)
               /\ eff == of_nat (last + 1 - first) * of_nat 512 / inject_Z 512
       | _, _ =>
           existsb (fun b => b) mask = false
           /\ silence_metrics Fixture.late_burst 512 5 = Some (0, 1)
       end.
Proof.
  apply (silence_metrics_spec Fixture.late_burst 512 5).
  unfold Fixture.late_burst. rewrite length_app, !repeat_length. lia.
Defined.

End Silence.

(** ** Stage 1: normalization *)

Section Normalize.
Import Num Refiner.
Context `{Librosa}.






End Normalize.


(** ** The per-file analysis and the batch *)

Section Analysis.
Import Num Analyzer Spec.
Context `{Librosa}.

Lemma percentile_none a q : percentile a q = None -> a = [].
Proof. destruct a; [reflexivity | discriminate]. Qed.

Lemma estimate_snr_none rms : estimate_snr rms = None -> rms = [].
Proof.
  unfold estimate_snr. destruct (percentile rms 10) eqn:E; simpl.
  - destruct (0 <? _)%nat; discriminate.
  - intros _. apply percentile_none in E. exact E.
Qed.

Lemma frame_nonempty y fl hop frames : frame y fl hop = Some frames -> frames <> [].
Proof.
  unfold frame. destruct (_ <? _)%nat; [discriminate |].
  destruct (_ <? _)%nat; [discriminate |]. intros [= <-]. discriminate.
Qed.

Lemma silence_metrics_none y sr d :
  silence_metrics y sr d = None -> frame y 2048 512 = None.
Proof.
  unfold silence_metrics, frame_length, hop_length.
  destruct (frame y 2048 512) as [frames |] eqn:Hf; [| reflexivity]. simpl.
  destruct (percentile (energy_of_frames frames) 20) eqn:Hp; simpl.
  - destruct (existsb _ _); discriminate.
  - apply percentile_none in Hp. apply frame_nonempty in Hf.
    destruct frames; [congruence | discriminate].
Qed.

Lemma analyze_none_raises fs p : analyze_audio_file fs p = None <-> raises fs p.
Proof.
  unfold analyze_audio_file. split.
  - destruct (Fs.load fs p) as [[y sr] |] eqn:Hl; [| intros _; apply raises_decode, Hl].
    simpl. destruct (Z.eqb_spec sr 0) as [-> | Hsr]; simpl;
      [intros _; eapply raises_zero_rate, Hl |].
    assert (Hst : exists n, Fs.stat_size fs p = Some n).
    { unfold Fs.stat_size, Fs.load in *. destruct (fs !! p); [| discriminate]. eauto. }
    destruct Hst as [n ->]. simpl.
    destruct (feature_rms y) as [rms |] eqn:Hrms; simpl;
      [| intros _; eapply raises_rms; eassumption].
    destruct (feature_zero_crossing_rate y) eqn:Hzcr; simpl;
      [| intros _; eapply raises_zcr; eassumption].
    destruct (feature_spectral_centroid y sr) eqn:Hc; simpl;
      [| intros _; eapply raises_centroid; eassumption].
    destruct (estimate_snr rms) eqn:Hsnr; simpl;
      [| intros _; apply estimate_snr_none in Hsnr; subst rms;
         eapply raises_percentile; eassumption].
    destruct (feature_spectral_rolloff y sr) eqn:Hro; simpl;
      [| intros _; eapply raises_rolloff; eassumption].
    destruct (feature_spectral_bandwidth y sr) eqn:Hbw; simpl;
      [| intros _; eapply raises_bandwidth; eassumption].
    destruct (silence_metrics y sr _) as [[eff sil] |] eqn:Hsil; simpl; [discriminate |].
    intros _. apply silence_metrics_none in Hsil. eapply raises_frame; eassumption.
  - assert (Hnil : estimate_snr [] = None) by reflexivity.
    intros [Hl | y Hl | y sr Hl Hx | y sr Hl Hx | y sr Hl Hx | y sr Hl Hx | y sr Hl Hx
           | y sr Hl Hx | y sr Hl Hx]; rewrite Hl; simpl; try reflexivity.
    all: repeat
           lazymatch goal with
           | |- mbind _ (silence_metrics _ _ _) = None => fail
           | |- mbind _ ?x = None =>
               first [ match goal with E : x = _ |- _ => rewrite E end
                     | destruct x ];
               simpl; try reflexivity
           end.
    unfold silence_metrics, frame_length, hop_length. rewrite Hx. reflexivity.
Qed.

Lemma analyze_each_app fs files res :
  analyze_each fs files res = res ++ omap (analyze_audio_file fs) files.
Proof.
  unfold analyze_each. revert res.
  induction files as [| f files IH]; intros res; simpl; [symmetry; apply app_nil_r |].
  rewrite IH. destruct (analyze_audio_file fs f); [| reflexivity].
  rewrite <- app_assoc. reflexivity.
Qed.

Lemma insert_desc_perm x l : Permutation (insert_desc x l) (x :: l).
Proof.
  induction l as [| y l IH]; simpl; [reflexivity |].
  destruct (geb _ _); [reflexivity |].
  rewrite IH. apply perm_swap.
Qed.

Lemma sort_by_score_perm l : Permutation (sort_by_score l) l.
Proof.
  induction l as [| x l IH]; simpl; [reflexivity |].
  rewrite insert_desc_perm, IH. reflexivity.
Qed.

Lemma in_omap {A B} (f : A -> option B) l b :
  In b (omap f l) <-> exists a, In a l /\ f a = Some b.
Proof.
  induction l as [| x l IH]; simpl; [firstorder |].
  destruct (f x) as [b' |] eqn:E; simpl; rewrite IH; split.
  - intros [<- | (a & Ha & Hf)]; eauto.
  - intros (a & [<- | Ha] & Hf); [left; congruence | right; eauto].
  - intros (a & Ha & Hf); eauto.
  - intros (a & [<- | Ha] & Hf); [congruence | eauto].
Qed.

Lemma analyze_hpss_handled fs p y sr m :
  Fs.load fs p = Some (y, sr) ->
  analyze_audio_file fs p = Some m ->
  harmonic_noise_ratio m = estimate_hnr y.
Proof.
  intros Hl. unfold analyze_audio_file. rewrite Hl. simpl.
  destruct (sr =? 0)%Z; simpl; [discriminate |].
  destruct (Fs.stat_size fs p); simpl; [| discriminate].
  destruct (feature_rms y) as [rms |]; simpl; [| discriminate].
  destruct (feature_zero_crossing_rate y); simpl; [| discriminate].
  destruct (feature_spectral_centroid y sr); simpl; [| discriminate].
  destruct (estimate_snr rms); simpl; [| discriminate].
  destruct (feature_spectral_rolloff y sr); simpl; [| discriminate].
  destruct (feature_spectral_bandwidth y sr); simpl; [| discriminate].
  destruct (silence_metrics y sr _) as [[eff sil] |]; simpl; [| discriminate].
  intros [= <-]. reflexivity.
Qed.

(** C10, amended.  For every input file, an exception raised during its
    analysis by the decoder, by the framing, by a per-frame feature or by a
    percentile makes [analyze_audio_file] return None instead of propagating
    it, and nothing else does: an exception raised by the
    harmonic/percussive decomposition is caught by the handler around it,
    which sets the harmonic ratio to 1.0 and lets the analysis go on.
    [analyze_all_audio] leaves a file whose analysis is None out of the
    results while the records of all the other files are collected. *)
Theorem failed_analysis_is_skipped (fs : gmap string file) :
  (forall p, raises fs p <-> analyze_audio_file fs p = None)
  /\ (forall p y sr m,
         Fs.load fs p = Some (y, sr) -> effects_hpss y = None ->
         analyze_audio_file fs p = Some m -> harmonic_noise_ratio m = 1)
  /\ forall (audio_files : list string) (self : analyzer) (f : string),
      In f audio_files ->
      analyze_audio_file fs f = None ->
      snd (analyze_all_audio fs true audio_files self)
      = results (fst (analyze_all_audio fs true audio_files self))
      /\ forall m,
          In m (snd (analyze_all_audio fs true audio_files self))
          <-> In m (results self)
              \/ exists g, In g audio_files /\ g <> f
                           /\ analyze_audio_file fs g = Some m.
Proof.
  split; [intros p; symmetry; apply analyze_none_raises |].
  split.
  { intros p y sr m Hl Hh Hm. rewrite (analyze_hpss_handled _ _ _ _ _ Hl Hm).
    unfold estimate_hnr. rewrite Hh. reflexivity. }
  intros audio_files self f Hin Hf. split; [reflexivity |].
  intros m. unfold analyze_all_audio. simpl.
  rewrite analyze_each_app. split.
  - intros Hm. apply (Permutation_in _ (sort_by_score_perm _)) in Hm.
    apply in_app_or in Hm. destruct Hm as [Hm | Hm]; [left; exact Hm | right].
    apply in_omap in Hm. destruct Hm as (g & Hg & Hgm).
    exists g. repeat split; trivial. intros ->. congruence.
  - intros Hm. apply (Permutation_in _ (Permutation_sym (sort_by_score_perm _))).
    apply in_or_app. destruct Hm as [Hm | (g & Hg & _ & Hgm)]; [left; exact Hm | right].
    apply in_omap. eauto.
Qed.

(** *** Degenerate buffers *)

Lemma sum_loop_zero l a : a == 0 -> Forall is_zero l -> fold_left Qplus l a == 0.
Proof.
  intros Ha Hl. revert a Ha. induction Hl as [| x l Hx _ IH]; intros a Ha; simpl.
  - exact Ha.
  - apply IH. unfold is_zero in Hx. rewrite Ha, Hx. reflexivity.
Qed.

Lemma sum_squares_zero l : Forall is_zero l -> sum (map (fun v => v * v) l) == 0.
Proof.
  intros Hl. apply sum_loop_zero; [reflexivity |].
  induction Hl as [| x l Hx _ IH]; simpl; constructor; [| exact IH].
  unfold is_zero in *. rewrite Hx. reflexivity.
Qed.

Lemma insert_asc_forall (P : Q -> Prop) x l :
  P x -> Forall P l -> Forall P (insert_asc x l).
Proof.
  intros Hx Hl. induction Hl as [| y l Hy Hl IH]; simpl; [repeat constructor; exact Hx |].
  destruct (leb x y); repeat constructor; assumption.
Qed.

Lemma sort_asc_forall (P : Q -> Prop) l : Forall P l -> Forall P (sort_asc l).
Proof.
  induction 1 as [| x l Hx _ IH]; simpl; [constructor |].
  apply insert_asc_forall; assumption.
Qed.

Lemma nth_zero l i : Forall is_zero l -> nth i l 0 == 0.
Proof.
  intros Hl. revert i. induction Hl as [| x l Hx _ IH]; intros [| i]; simpl;
    try reflexivity; [exact Hx | apply IH].
Qed.

Lemma percentile_zero a q p : Forall is_zero a -> percentile a q = Some p -> p == 0.
Proof.
  intros Ha. destruct a as [| x a']; [discriminate |].
  unfold percentile. intros [= <-].
  assert (Hs : forall i, nth i (sort_asc (x :: a')) 0 == 0)
    by (intros i; apply nth_zero, sort_asc_forall, Ha).
  cbv zeta. set (lo := Z.to_nat _). set (hi := Nat.min _ _).
  rewrite (Hs lo), (Hs hi). ring.
Qed.

Lemma slice_forall (P : Q -> Prop) y i j : Forall P y -> Forall P (slice y i j).
Proof. intros Hy. unfold slice. apply Forall_take, Forall_drop, Hy. Qed.

Lemma frame_energy_zero y fl hop frames :
  Forall is_zero y -> frame y fl hop = Some frames ->
  Forall is_zero (energy_of_frames frames).
Proof.
  intros Hy. unfold frame. destruct (_ <? _)%nat; [discriminate |].
  destruct (_ <? _)%nat; [discriminate |]. intros E.
  assert (E' : frames
               = map (fun i => slice y (i * hop) (i * hop + fl))
                   (seq 0 (1 + (length y - fl) / hop))) by congruence.
  rewrite E'. clear E E'.
  unfold energy_of_frames. rewrite map_map. apply List.Forall_forall.
  intros e He. apply in_map_iff in He. destruct He as (i & <- & _).
  apply sum_squares_zero, slice_forall, Hy.
Qed.

Lemma filter_nothing (f : Q -> bool) l :
  Forall (fun e => f e = false) l -> List.filter f l = [].
Proof.
  induction 1 as [| x l Hx _ IH]; simpl; [reflexivity |]. rewrite Hx. exact IH.
Qed.

Lemma none_above_zero thr l :
  thr == 0 -> Forall is_zero l -> Forall (fun e => ltb thr e = false) l.
Proof.
  intros Ht Hl. eapply List.Forall_impl; [| exact Hl].
  intros e He. unfold is_zero in He. apply ltb_ge. rewrite He, Ht. apply Qle_refl.
Qed.

Lemma estimate_snr_zero rms :
  rms <> [] -> Forall is_zero rms -> estimate_snr rms = Some 0.
Proof.
  intros Hne Hz. destruct (percentile_some rms 10 Hne) as [nf Hnf].
  pose proof (percentile_zero _ _ _ Hz Hnf) as Hnf0.
  unfold estimate_snr. rewrite Hnf. simpl. rewrite select_mask_filter.
  rewrite filter_nothing; [reflexivity |].
  unfold gtb. apply none_above_zero; [| exact Hz]. rewrite Hnf0. reflexivity.
Qed.

Lemma silence_metrics_zero y sr d :
  (2048 <= length y)%nat -> Forall is_zero y -> silence_metrics y sr d = Some (0, 1).
Proof.
  intros Hlen Hz.
  destruct (frame_some y 2048 512 Hlen ltac:(lia)) as (frames & Hf & Hn).
  pose proof (frame_energy_zero _ _ _ _ Hz Hf) as He.
  destruct (percentile_some (energy_of_frames frames) 20) as [thr Hthr].
  { unfold energy_of_frames. destruct frames; [simpl in Hn; lia | discriminate]. }
  pose proof (percentile_zero _ _ _ He Hthr) as Ht.
  unfold silence_metrics, frame_length, hop_length, gtb.
  rewrite Hf. simpl. rewrite Hthr. simpl.
  replace (existsb (fun b => b) (map (fun e => ltb thr e) (energy_of_frames frames)))
    with false; [reflexivity |].
  symmetry. apply not_true_iff_false. intros Hex. apply existsb_exists in Hex.
  destruct Hex as (b & Hin & ->).
  apply in_map_iff in Hin. destruct Hin as (e & Hlt & Hin).
  pose proof (none_above_zero thr _ Ht He) as Hall.
  rewrite List.Forall_forall in Hall. rewrite (Hall e Hin) in Hlt. discriminate.
Qed.

(** C6, amended.  An all-zero buffer at least one frame (2048 samples) long,
    whose RMS series is all zero, raises nowhere: the SNR estimate is 0.0,
    the effective duration 0.0 and the silence ratio 1.0; whenever the
    harmonic/percussive decomposition raises, the harmonic ratio is 1.0;
    and the composite quality score is computed from these values.  A buffer
    shorter than one frame, which includes the empty buffer of zero
    duration, makes the framing raise: the analysis returns None and no
    score is computed. *)
Theorem degenerate_inputs (fs : gmap string file) (p : string) (y : list Q)
    (sr n : Z) :
  fs !! p = Some (Audio y sr n) ->
  ((length y < 2048)%nat -> analyze_audio_file fs p = None)
  /\ ((2048 <= length y)%nat -> sr <> 0%Z -> Forall is_zero y ->
      forall rms zcr centroids rolloff bandwidth,
        feature_rms y = Some rms -> rms <> [] -> Forall is_zero rms ->
        feature_zero_crossing_rate y = Some zcr ->
        feature_spectral_centroid y sr = Some centroids ->
        feature_spectral_rolloff y sr = Some rolloff ->
        feature_spectral_bandwidth y sr = Some bandwidth ->
        exists m,
          analyze_audio_file fs p = Some m
          /\ snr_estimate m = 0 /\ effective_duration m = 0 /\ silence_ratio m = 1
          /\ (effects_hpss y = None -> harmonic_noise_ratio m = 1)
          /\ quality_score m
             = composite_score (duration m) 0 (harmonic_noise_ratio m) 1)
  /\ (forall y', effects_hpss y' = None -> estimate_hnr y' = 1).
Proof.
  intros Hfs.
  assert (Hl : Fs.load fs p = Some (y, sr)) by (unfold Fs.load; rewrite Hfs; reflexivity).
  split; [| split].
  - intros Hshort. apply analyze_none_raises. eapply raises_frame; [exact Hl |].
    unfold frame. destruct (Nat.ltb_spec (length y) 2048); [reflexivity | lia].
  - intros Hlen Hsr Hz rms zcr centroids rolloff bandwidth Hrms Hne Hrz Hzcr Hc Hro Hbw.
    unfold analyze_audio_file. rewrite Hl. simpl.
    destruct (Z.eqb_spec sr 0) as [| _]; [contradiction |]. simpl.
    unfold Fs.stat_size. rewrite Hfs. simpl.
    rewrite Hrms. simpl. rewrite Hzcr. simpl. rewrite Hc. simpl.
    rewrite (estimate_snr_zero rms Hne Hrz). simpl.
    rewrite Hro. simpl. rewrite Hbw. simpl.
    rewrite (silence_metrics_zero y sr _ Hlen Hz). simpl.
    eexists. split; [reflexivity |]. simpl. repeat split.
    intros Hh. unfold estimate_hnr. rewrite Hh. reflexivity.
  - intros y' Hh. unfold estimate_hnr. rewrite Hh. reflexivity.
Qed.

End Analysis.

(** C10, the claim as stated fails.  On the silent clip of one frame, with
    a harmonic/percussive decomposition that raises: the exception is
    raised during the analysis, the handler around the decomposition
    catches it, and the analysis returns a record, with harmonic ratio 1.0
    and a score, not None. *)
Lemma hpss_exception_is_not_none :
  @effects_hpss Fixture.backend_without_hpss Fixture.silent_clip = None
  /\ exists m,
      @Analyzer.analyze_audio_file Fixture.backend_without_hpss Fixture.disk "silent"
      = Some m
      /\ harmonic_noise_ratio m = 1
      /\ quality_score m = 25.
Proof.
  split; [reflexivity |]. eexists. split; [vm_compute; reflexivity |].
  split; reflexivity.
Qed.

(** C6, the claim as stated fails.  A silent clip of 100 samples, and the
    empty clip of zero duration, are shorter than one frame: the framing
    raises, nothing handles it before the outer handler, and the analysis
    returns None instead of a score, with a library stand-in whose features
    all succeed and with any other. *)
Lemma short_buffer_is_not_scored :
  Forall Spec.is_zero Fixture.short_clip
  /\ length Fixture.short_clip = 100%nat
  /\ Num.frame Fixture.short_clip 2048 512 = None
  /\ @Analyzer.analyze_audio_file (Fixture.backend true) Fixture.disk "short" = None
  /\ Num.frame [] 2048 512 = None
  /\ @Analyzer.analyze_audio_file (Fixture.backend true) Fixture.disk "empty" = None
  /\ (forall L : Librosa,
         @Analyzer.analyze_audio_file L Fixture.disk "short" = None
         /\ @Analyzer.analyze_audio_file L Fixture.disk "empty" = None).
Proof.
  split.
  { apply List.Forall_forall. intros x Hx. apply repeat_spec in Hx. subst x. reflexivity. }
  repeat split; try (vm_compute; reflexivity).
  - apply (@analyze_none_raises L). eapply (@Spec.raises_frame L); reflexivity.
  - apply (@analyze_none_raises L). eapply (@Spec.raises_frame L); reflexivity.
Qed.

(** An undecodable file, a silent clip of one frame and a clip shorter than
    one frame. *)
Lemma failed_analysis_is_skipped_witness :
  let B := Fixture.backend true in
  let audio_files := ["broken"; "silent"; "short"] in
  let self := {| audio_dir := "audio_samples"; results := [] |} in
  snd (@Analyzer.analyze_all_audio B Fixture.disk true audio_files self)
  = results (fst (@Analyzer.analyze_all_audio B Fixture.disk true audio_files self))
  /\ forall m,
      In m (snd (@Analyzer.analyze_all_audio B Fixture.disk true audio_files self))
      <-> In m (results self)
          \/ exists g, In g audio_files /\ g <> "broken"
                       /\ @Analyzer.analyze_audio_file B Fixture.disk g = Some m.
Proof.
  intros B audio_files self.
  refine (proj2 (proj2 (@failed_analysis_is_skipped B Fixture.disk))
            audio_files self "broken" _ _).
  - simpl. tauto.
  - reflexivity.
Defined.

(** The silent clip of one frame. *)
Lemma degenerate_inputs_witness :
  exists m,
    @Analyzer.analyze_audio_file (Fixture.backend true) Fixture.disk "silent" = Some m
    /\ snr_estimate m = 0 /\ effective_duration m = 0 /\ silence_ratio m = 1
    /\ (@effects_hpss (Fixture.backend true) Fixture.silent_clip = None ->
        harmonic_noise_ratio m = 1)
    /\ quality_score m
       = Analyzer.composite_score (duration m) 0 (harmonic_noise_ratio m) 1.
Proof.
  assert (Hz : forall k, Forall Spec.is_zero (repeat 0 k)).
  { intros k. apply List.Forall_forall. intros x Hx. apply repeat_spec in Hx.
    subst x. reflexivity. }
  refine (proj1 (proj2 (@degenerate_inputs (Fixture.backend true) Fixture.disk "silent"
                          Fixture.silent_clip 22050 4140 eq_refl))
            _ _ _ (repeat 0 5) _ _ _ _ eq_refl _ _ eq_refl eq_refl eq_refl eq_refl).
  - unfold Fixture.silent_clip. rewrite repeat_length. lia.
  - discriminate.
  - apply Hz.
  - discriminate.
  - apply Hz.
Defined.

(** ** The pipeline and the fallback of stage 3 *)

Section Pipeline.
Import Num Refiner.

Context `{Librosa}.

Lemma stage_2_3_paths_differ output_dir input_path :
  stage_path output_dir "stage2_trimmed_" input_path
  <> stage_path output_dir "stage3_denoised_" input_path.
Proof.
  unfold stage_path, in_dir. intros E.
  apply (inj (String.app output_dir)) in E. discriminate.
Qed.

Lemma cleanup_keeps_final fs stage_files final :
  cleanup fs stage_files final !! final = fs !! final.
Proof.
  unfold cleanup. revert fs.
  induction stage_files as [| p l IH]; intros fs; simpl; [reflexivity |].
  rewrite IH. destruct (Fs.exists_ fs p); simpl; [| reflexivity].
  destruct (bool_decide_reflect (p = final)); simpl; [reflexivity |].
  unfold Fs.unlink. apply lookup_delete_ne. assumption.
Qed.

Lemma stage_5_writes_output fs input_path output_path target_duration fs' :
  stage_5_extract_best_segment fs input_path output_path target_duration = (true, fs') ->
  exists y sr n, fs' !! output_path = Some (Audio y sr n) /\ sr <> 0%Z.
Proof.
  unfold stage_5_extract_best_segment, Fs.load, Fs.shutil_copy, Fs.sf_write.
  destruct (fs !! input_path) as [[y sr n | n] |] eqn:Hin; try discriminate.
  destruct (Z.eqb_spec sr 0) as [| Hsr]; [discriminate |].
  destruct (leb _ _).
  - destruct (bool_decide _); [discriminate |]. intros [= <-].
    exists y, sr, n. split; [apply lookup_insert_eq | exact Hsr].
  - destruct (extract_best_segment y sr target_duration) as [seg |]; [| discriminate].
    intros [= <-]. eexists seg, sr, _. split; [apply lookup_insert_eq | exact Hsr].
Qed.

(** C5, the claim as stated fails.  A loud clip of three samples at
    22050 Hz, with a spectral gate that raises: stage 3 copies its input,
    stages 4 and 5 run and the final file is written, yet the run is
    reported as a failure; the same run with a working gate is a success. *)
Lemma fallback_run_is_reported_failed :
  (exists fs',
      @process_audio_file (Fixture.backend false) "out" Fixture.disk "loud" None
      = Returned Failure fs'
      /\ is_Some (fs' !! "out/refined_loud.wav"))
  /\ (exists d z fs',
         @process_audio_file (Fixture.backend true) "out" Fixture.disk "loud" None
         = Returned (Success "loud" "out/refined_loud.wav" d 22050 z) fs').
Proof.
  split.
  - eexists. split; [vm_compute; reflexivity |]. vm_compute. eauto.
  - eexists _, _, _. vm_compute. reflexivity.
Qed.

(** C5, amended.  If the SpectralDenoise stage fails internally on the
    buffer stage 2 left, its output is an unmodified copy of its input, it
    returns failure, and the pipeline continues through stages 4 and 5 on
    that copy; the run is then reported unsuccessful.  A pipeline run is
    reported successful exactly when all five stages return success (the
    final file is then persisted). *)
Theorem stage_3_fallback_and_success (output_dir : string) (fs : gmap string file)
    (input_path : string) (output_name : option string) :
  let s1 := stage_path output_dir "stage1_norm_" input_path in
  let s2 := stage_path output_dir "stage2_trimmed_" input_path in
  let s3 := stage_path output_dir "stage3_denoised_" input_path in
  let s4 := stage_path output_dir "stage4_resampled_" input_path in
  let final := final_path output_dir input_path output_name in
  let r1 := stage_1_normalize_audio fs input_path s1 in
  let r2 := stage_2_remove_silence (snd r1) s1 s2 in
  (forall y sr n,
      snd r2 !! s2 = Some (Audio y sr n) ->
      spectral_gate y sr = None ->
      let fs3 := <[s3 := Audio y sr n]> (snd r2) in
      stage_3_noise_reduction (snd r2) s2 s3 = Returned false fs3
      /\ fs3 !! s3 = snd r2 !! s2
      /\ process_audio_file output_dir fs input_path output_name
         = Returned Failure
             (cleanup
                (snd (stage_5_extract_best_segment
                        (snd (stage_4_resample_optimal fs3 s3 s4 22050)) s4 final 15))
                [s1; s2; s3; s4] final))
  /\ ((exists d r z fs',
          process_audio_file output_dir fs input_path output_name
          = Returned (Success input_path final d r z) fs')
      <-> exists fs3,
          fst r1 = true /\ fst r2 = true
          /\ stage_3_noise_reduction (snd r2) s2 s3 = Returned true fs3
          /\ fst (stage_4_resample_optimal fs3 s3 s4 22050) = true
          /\ fst (stage_5_extract_best_segment
                    (snd (stage_4_resample_optimal fs3 s3 s4 22050)) s4 final 15)
             = true).
Proof.
  intros s1 s2 s3 s4 final r1 r2.
  pose proof (stage_2_3_paths_differ output_dir input_path) as Hne.
  fold s2 s3 in Hne. unfold process_audio_file. fold s1 s2 s3 s4 final.
  clearbody s1 s2 s3 s4 final. unfold run_stages. fold r1.
  destruct r1 as [ok1 fs1]. cbn [fst snd] in r2. fold r2.
  destruct r2 as [ok2 fs2]. cbn [fst snd]. split.
  - intros y sr n Hin Hgate. set (fs3 := <[s3 := Audio y sr n]> fs2).
    assert (E3 : stage_3_noise_reduction fs2 s2 s3 = Returned false fs3).
    { unfold stage_3_noise_reduction, Fs.load, Fs.shutil_copy. rewrite Hin.
      cbn [mbind option_bind]. rewrite Hgate. cbn [mbind option_bind].
      rewrite bool_decide_false by exact Hne. reflexivity. }
    split; [exact E3 |]. split; [rewrite Hin; apply lookup_insert_eq |].
    rewrite E3.
    destruct (stage_4_resample_optimal fs3 s3 s4 22050) as [ok4 fs4].
    cbn [fst snd].
    destruct (stage_5_extract_best_segment fs4 s4 final 15) as [ok5 fs5].
    cbn [fst snd]. rewrite !andb_false_r. reflexivity.
  - destruct (stage_3_noise_reduction fs2 s2 s3) as [ok3 fs3 | fs3].
    2: { split; [intros (d & r & z & fs' & E); discriminate
                | intros (fs3' & _ & _ & E & _); discriminate]. }
    destruct (stage_4_resample_optimal fs3 s3 s4 22050) as [ok4 fs4] eqn:H4.
    destruct (stage_5_extract_best_segment fs4 s4 final 15) as [ok5 fs5] eqn:H5.
    split.
    + intros (d & r & z & fs' & E). exists fs3. rewrite H4. cbn [fst snd].
      rewrite H5. cbn [fst snd].
      destruct ok1, ok2, ok3, ok4, ok5; cbn [andb] in E; try discriminate.
      repeat split.
    + intros (fs3' & -> & -> & E3 & E4 & E5). injection E3 as -> <-.
      rewrite H4 in E4, E5. cbn [fst snd] in E4, E5. rewrite H5 in E5.
      cbn [fst snd] in E5. subst ok4 ok5.
      destruct (stage_5_writes_output _ _ _ _ _ H5) as (y & sr & n & Hout & Hsr).
      cbn [andb]. unfold Fs.exists_, Fs.load, Fs.stat_size.
      rewrite cleanup_keeps_final, Hout. cbn [fmap option_fmap option_map file_size].
      rewrite bool_decide_true by eauto.
      destruct (Z.eqb_spec sr 0); [contradiction |]. eauto.
Qed.

End Pipeline.

(** The loud clip, with a spectral gate that raises. *)
Lemma stage_3_fallback_and_success_witness :
  let B := Fixture.backend false in
  let s1 := @Refiner.stage_path B "out" "stage1_norm_" "loud" in
  let s2 := @Refiner.stage_path B "out" "stage2_trimmed_" "loud" in
  let s3 := @Refiner.stage_path B "out" "stage3_denoised_" "loud" in
  let fs2 :=
    snd (@Refiner.stage_2_remove_silence B
           (snd (@Refiner.stage_1_normalize_audio B Fixture.disk "loud" s1)) s1 s2) in
  exists y sr n,
    fs2 !! s2 = Some (Audio y sr n)
    /\ @Refiner.stage_3_noise_reduction B fs2 s2 s3
       = Returned false (<[s3 := Audio y sr n]> fs2)
    /\ <[s3 := Audio y sr n]> fs2 !! s3 = fs2 !! s2.
Proof.
  intros B s1 s2 s3 fs2.
  eexists _, _, _. split; [vm_compute; reflexivity |].
  pose proof (proj1 (@stage_3_fallback_and_success B "out" Fixture.disk "loud" None))
    as Hfallback.
  cbv zeta in Hfallback. fold s1 s2 s3 fs2 in Hfallback.
  refine (let '(conj A (conj C _)) := Hfallback _ _ _ _ _ in conj A C).
  - vm_compute. reflexivity.
  - reflexivity.
Defined.

(** ** Stage 5: the best segment *)

Section BestSegment.
Import Num Refiner Spec.
Context `{Librosa}.

Lemma scan_S w k :
  scan w (S k)
  = (let '(M, b) := scan w k in
     if gtb (w (Z.of_nat k)) M then (w (Z.of_nat k), Z.of_nat k) else (M, b)).
Proof.
  unfold scan. rewrite seq_S, map_app, fold_left_app. simpl.
  destruct (fold_left _ _ _). reflexivity.
Qed.

Lemma scan_invariant w k :
  (forall i, (i < k)%nat -> w (Z.of_nat i) <= fst (scan w k))
  /\ (scan w k = (0, 0%Z)
      \/ exists j, (j < k)%nat /\ scan w k = (w (Z.of_nat j), Z.of_nat j)
                   /\ forall i, (i < j)%nat -> w (Z.of_nat i) < w (Z.of_nat j)).
Proof.
  induction k as [| k [IHle IHbest]].
  - split; [intros i Hi; lia | left; reflexivity].
  - rewrite scan_S. destruct (scan w k) as [M b]. simpl in IHle.
    destruct (gtb (w (Z.of_nat k)) M) eqn:Hgt.
    + apply gtb_gt in Hgt. split.
      * intros i Hi. simpl. destruct (Nat.eq_dec i k) as [-> | Hne]; [apply Qle_refl |].
        apply Qlt_le_weak. eapply Qle_lt_trans; [apply IHle; lia | exact Hgt].
      * right. exists k. split; [lia |]. split; [reflexivity |].
        intros i Hi. eapply Qle_lt_trans; [apply IHle; lia | exact Hgt].
    + apply ltb_ge in Hgt. split.
      * intros i Hi. simpl. destruct (Nat.eq_dec i k) as [-> | Hne]; [exact Hgt |].
        apply IHle. lia.
      * destruct IHbest as [E | (j & Hj & E & Hlt)]; [left; exact E | right].
        exists j. split; [lia |]. split; [exact E | exact Hlt].
Qed.

Lemma scan_leftmost_max w k :
  (1 <= k)%nat -> (forall i, 0 <= w i) ->
  let b := snd (scan w k) in
  (0 <= b < Z.of_nat k)%Z
  /\ (forall i, (0 <= i < Z.of_nat k)%Z -> w i <= w b)
  /\ (forall i, (0 <= i < b)%Z -> w i < w b).
Proof.
  intros Hk Hw. destruct (scan_invariant w k) as [Hle Hbest].
  destruct Hbest as [E | (j & Hj & E & Hlt)]; rewrite E in *; simpl in *.
  - split; [lia |]. split; [| intros i Hi; lia].
    intros i Hi. apply Qle_trans with 0; [| apply Hw].
    rewrite <- (Z2Nat.id i) by lia. apply Hle. lia.
  - split; [lia |]. split.
    + intros i Hi. rewrite <- (Z2Nat.id i) by lia. apply Hle. lia.
    + intros i Hi. rewrite <- (Z2Nat.id i) by lia. apply Hlt. lia.
Qed.

Lemma best_window_scan e tf :
  best_window e tf
  = scan (window_mean e tf) (Z.to_nat (Z.of_nat (length e) - tf + 1)).
Proof. reflexivity. Qed.

Lemma sum_loop_nonneg l a : 0 <= a -> Forall (Qle 0) l -> 0 <= fold_left Qplus l a.
Proof.
  intros Ha Hl. revert a Ha. induction Hl as [| x l Hx _ IH]; intros a Ha; simpl.
  - exact Ha.
  - apply IH. rewrite <- (Qplus_0_r 0). apply Qplus_le_compat; assumption.
Qed.

Lemma mean_nonneg l : Forall (Qle 0) l -> 0 <= mean l.
Proof.
  intros Hl. unfold mean, Qdiv. apply Qmult_le_0_compat.
  - apply sum_loop_nonneg; [apply Qle_refl | exact Hl].
  - apply Qinv_le_0_compat. unfold of_nat.
    rewrite <- (Zle_Qle 0). lia.
Qed.

Lemma energy_nonneg frames : Forall (Qle 0) (energy_of_frames frames).
Proof.
  unfold energy_of_frames. apply List.Forall_forall. intros e He.
  apply in_map_iff in He. destruct He as (f & <- & _).
  apply sum_loop_nonneg; [apply Qle_refl |].
  apply List.Forall_forall. intros v Hv. apply in_map_iff in Hv.
  destruct Hv as (u & <- & _). unfold Qle, Qmult. simpl. nia.
Qed.

Lemma py_slice_forall (P : Q -> Prop) l i j : Forall P l -> Forall P (py_slice l i j).
Proof. intros Hl. unfold py_slice. apply slice_forall, Hl. Qed.

Lemma window_mean_nonneg frames tf i :
  0 <= window_mean (energy_of_frames frames) tf i.
Proof. apply mean_nonneg, py_slice_forall, energy_nonneg. Qed.

Lemma py_int_floor x : 0 <= x -> py_int x = Qfloor x.
Proof.
  destruct x as [a d]. unfold Qle, py_int, Qfloor. simpl. intros Ha.
  apply Z.quot_div_nonneg; lia.
Qed.

Lemma py_int_bounds x : 0 <= x -> (0 <= py_int x)%Z /\ inject_Z (py_int x) <= x.
Proof.
  intros Hx. rewrite (py_int_floor x Hx). split; [| apply Qfloor_le].
  change 0%Z with (Qfloor 0). apply Qfloor_resp_le, Hx.
Qed.

Lemma py_int_ge_1 x : 1 <= x -> (1 <= py_int x)%Z.
Proof.
  intros Hx. rewrite py_int_floor by (apply Qle_trans with 1; [discriminate | exact Hx]).
  change 1%Z with (Qfloor 1). apply Qfloor_resp_le, Hx.
Qed.


Lemma longer_than_target (len : nat) (sr : Z) (target : Q) :
  (0 < sr)%Z -> target < of_nat len / inject_Z sr ->
  0 <= target * inject_Z sr ->
  (0 <= py_int (target * inject_Z sr) < Z.of_nat len)%Z.
Proof.
  intros Hsr Hlt Hnn.
  assert (Hq : 0 < inject_Z sr) by (rewrite <- (Zlt_Qlt 0); exact Hsr).
  destruct (py_int_bounds _ Hnn) as [H0 Hle]. split; [exact H0 |].
  rewrite Zlt_Qlt. eapply Qle_lt_trans; [exact Hle |].
  apply (Qmult_lt_r _ _ _ Hq) in Hlt.
  eapply Qlt_le_trans; [exact Hlt |]. unfold of_nat.
  apply Qle_lteq. right. field. intros E. rewrite E in Hq. discriminate.
Qed.

Lemma window_frames_bounds (e : list Q) (sr : Z) (target : Q) :
  e <> [] -> 512 <= target * inject_Z sr ->
  (1 <= window_frames e sr target <= Z.of_nat (length e))%Z.
Proof.
  intros He Hbig. unfold window_frames, hop_length.
  assert (Ht : (1 <= py_int (target * inject_Z sr / of_nat 512))%Z).
  { apply py_int_ge_1. apply Qle_shift_div_l; [reflexivity |].
    rewrite Qmult_1_l. exact Hbig. }
  assert (Hn : (1 <= Z.of_nat (length e))%Z) by (destruct e; [congruence | simpl; lia]).
  destruct (Z.ltb_spec (Z.of_nat (length e))
              (py_int (target * inject_Z sr / of_nat 512))); lia.
Qed.



End BestSegment.


(** * Further properties of the analyzer *)

(** ** The shape of the composite score *)

Section ScoreShape.
Import Num Analyzer Buckets.

Ltac to_props :=
  repeat match goal with
         | H : Qle_bool _ _ = true |- _ => apply Qle_bool_iff in H
         | H : Qle_bool _ _ = false |- _ =>
             apply not_true_iff_false in H; rewrite Qle_bool_iff in H
         | H : ltb _ _ = true |- _ => apply ltb_lt in H
         | H : ltb _ _ = false |- _ => apply ltb_ge in H
         end.

Lemma duration_bucket_mono d d' : d <= d' -> (duration_bucket d <= duration_bucket d')%Z.
Proof.
  intros Hd. unfold duration_bucket.
  destruct (Qle_bool 10 d) eqn:A1, (Qle_bool 5 d) eqn:A2, (Qle_bool 3 d) eqn:A3,
    (Qle_bool 10 d') eqn:B1, (Qle_bool 5 d') eqn:B2, (Qle_bool 3 d') eqn:B3;
    try lia; to_props; exfalso; lra.
Qed.

Lemma snr_bucket_mono s s' : s <= s' -> (snr_bucket s <= snr_bucket s')%Z.
Proof.
  intros Hs. unfold snr_bucket.
  destruct (ltb 20 s) eqn:A1, (ltb 10 s) eqn:A2, (ltb 5 s) eqn:A3,
    (ltb 20 s') eqn:B1, (ltb 10 s') eqn:B2, (ltb 5 s') eqn:B3;
    try lia; to_props; exfalso; lra.
Qed.

Lemma harmonic_bucket_mono h h' : h <= h' -> (harmonic_bucket h <= harmonic_bucket h')%Z.
Proof.
  intros Hh. unfold harmonic_bucket.
  destruct (ltb 2 h) eqn:A1, (ltb 1 h) eqn:A2, (ltb 2 h') eqn:B1, (ltb 1 h') eqn:B2;
    try lia; to_props; exfalso; lra.
Qed.

Lemma silence_bucket_anti r r' : r' <= r -> (silence_bucket r <= silence_bucket r')%Z.
Proof.
  intros Hr. unfold silence_bucket.
  destruct (ltb r (1 # 10)) eqn:A1, (ltb r (3 # 10)) eqn:A2, (ltb r (1 # 2)) eqn:A3,
    (ltb r' (1 # 10)) eqn:B1, (ltb r' (3 # 10)) eqn:B2, (ltb r' (1 # 2)) eqn:B3;
    try lia; to_props; exfalso; lra.
Qed.

(** X1.  The composite score is monotone: a longer clip, a higher SNR
    estimate, a higher harmonic ratio and a lower silence ratio never lower
    the score. *)
Theorem composite_score_monotone d s h r d' s' h' r' :
  d <= d' -> s <= s' -> h <= h' -> r' <= r ->
  composite_score d s h r <= composite_score d' s' h' r'.
Proof.
  intros Hd Hs Hh Hr. rewrite !composite_score_buckets. rewrite <- Zle_Qle.
  pose proof (duration_bucket_mono _ _ Hd). pose proof (snr_bucket_mono _ _ Hs).
  pose proof (harmonic_bucket_mono _ _ Hh). pose proof (silence_bucket_anti _ _ Hr).
  lia.
Qed.

(** A clip of 4 s against one of 12 s, everything else improving too. *)
Lemma composite_score_monotone_witness :
  composite_score 4 6 (1 # 2) (4 # 10) <= composite_score 12 30 3 (5 # 100).
Proof.
  apply composite_score_monotone; discriminate.
Defined.

(** X2.  The score is 100 exactly when the clip lasts at least 10 s, the SNR
    estimate exceeds 20, the harmonic ratio exceeds 2 and the silence ratio
    is below 0.1; it is 25 exactly when the clip is shorter than 3 s, the
    SNR estimate is at most 5, the harmonic ratio at most 1 and the silence
    ratio at least 0.5. *)
Theorem composite_score_extremes d s h r :
  (composite_score d s h r = 100
   <-> 10 <= d /\ 20 < s /\ 2 < h /\ r < 1 # 10)
  /\ (composite_score d s h r = 25
      <-> d < 3 /\ s <= 5 /\ h <= 1 /\ 1 # 2 <= r).
Proof.
  rewrite !composite_score_buckets.
  unfold duration_bucket, snr_bucket, harmonic_bucket, silence_bucket.
  repeat match goal with
         | |- context [if ?b then _ else _] => destruct b eqn:?
         end;
    to_props;
    (split;
     (split;
      [ first [ discriminate | intros _; repeat split; lra ]
      | first [ intros _; reflexivity | intros (? & ? & ? & ?); exfalso; lra ] ])).
Qed.

End ScoreShape.

(** ** The records of the analysis *)

Section Records.
Import Num Analyzer Spec.
Context `{Librosa}.


Lemma frame_count y fl hop frames :
  frame y fl hop = Some frames ->
  (fl <= length y)%nat /\ (1 <= hop)%nat
  /\ length frames = (1 + (length y - fl) / hop)%nat.
Proof.
  unfold frame. destruct (Nat.ltb_spec (length y) fl); [discriminate |].
  destruct (Nat.ltb_spec hop 1); [discriminate |]. intros E.
  assert (E' : frames
               = map (fun i => slice y (i * hop) (i * hop + fl))
                   (seq 0 (1 + (length y - fl) / hop))) by congruence.
  rewrite E', length_map, length_seq. lia.
Qed.

(** What a returned record says about the file it was computed from. *)
Lemma analyze_some_inv fs p m :
  analyze_audio_file fs p = Some m ->
  exists y sr n rms,
    fs !! p = Some (Audio y sr n) /\ sr <> 0%Z
    /\ feature_rms y = Some rms
    /\ m_file m = p /\ sample_rate m = sr /\ num_samples m = length y
    /\ duration m = of_nat (length y) / inject_Z sr
    /\ estimate_snr rms = Some (snr_estimate m)
    /\ harmonic_noise_ratio m = estimate_hnr y
    /\ silence_metrics y sr (duration m) = Some (effective_duration m, silence_ratio m)
    /\ quality_score m
       = composite_score (duration m) (snr_estimate m) (harmonic_noise_ratio m)
           (silence_ratio m).
Proof.
  unfold analyze_audio_file, Fs.load, Fs.stat_size.
  destruct (fs !! p) as [[y sr n | n] |] eqn:Hfs; try discriminate. simpl.
  destruct (Z.eqb_spec sr 0) as [| Hsr]; simpl; [discriminate |].
  destruct (feature_rms y) as [rms |] eqn:Hrms; simpl; [| discriminate].
  destruct (feature_zero_crossing_rate y); simpl; [| discriminate].
  destruct (feature_spectral_centroid y sr); simpl; [| discriminate].
  destruct (estimate_snr rms) eqn:Hsnr; simpl; [| discriminate].
  destruct (feature_spectral_rolloff y sr); simpl; [| discriminate].
  destruct (feature_spectral_bandwidth y sr); simpl; [| discriminate].
  destruct (silence_metrics y sr _) as [[eff sil] |] eqn:Hsil; simpl; [| discriminate].
  intros [= <-]. exists y, sr, n, rms. simpl. repeat split; trivial.
Qed.

(** X3.  Every record the analysis returns comes from a decodable file of
    at least 2048 samples with a non-zero sample rate; it names that file,
    its duration is num_samples / sample_rate, and its quality score is the
    composite score of its own duration, SNR estimate, harmonic ratio and
    silence ratio, between 25 and 100. *)
Theorem record_is_consistent (fs : gmap string file) (p : string) (m : metrics) :
  analyze_audio_file fs p = Some m ->
  (exists y n, fs !! p = Some (Audio y (sample_rate m) n)
               /\ num_samples m = length y)
  /\ m_file m = p
  /\ sample_rate m <> 0%Z
  /\ (2048 <= num_samples m)%nat
  /\ duration m = of_nat (num_samples m) / inject_Z (sample_rate m)
  /\ quality_score m
     = composite_score (duration m) (snr_estimate m) (harmonic_noise_ratio m)
         (silence_ratio m)
  /\ 25 <= quality_score m /\ quality_score m <= 100.
Proof.
  intros Hm.
  destruct (analyze_some_inv _ _ _ Hm)
    as (y & sr & n & rms & Hfs & Hsr & _ & Hf & Hr & Hn & Hd & _ & _ & Hsil & Hq).
  split; [exists y, n; rewrite Hr; split; assumption |].
  split; [exact Hf |]. split; [rewrite Hr; exact Hsr |].
  split.
  { rewrite Hn. unfold silence_metrics, frame_length, hop_length in Hsil.
    destruct (frame y 2048 512) as [frames |] eqn:E; [| discriminate].
    apply frame_count in E. lia. }
  split; [rewrite Hn, Hr; exact Hd |]. split; [exact Hq |].
  rewrite Hq. apply composite_score_bounds.
Qed.

End Records.

(** The silent clip of one frame. *)
Lemma record_is_consistent_witness :
  exists m,
    @Analyzer.analyze_audio_file (Fixture.backend true) Fixture.disk "silent" = Some m
    /\ m_file m = "silent" /\ sample_rate m <> 0%Z /\ (2048 <= num_samples m)%nat
    /\ 25 <= quality_score m /\ quality_score m <= 100.
Proof.
  eexists. split; [vm_compute; reflexivity |].
  pose proof (@record_is_consistent (Fixture.backend true) Fixture.disk "silent" _
                ltac:(vm_compute; reflexivity)) as (_ & Hf & Hr & Hn & _ & _ & Hlo & Hhi).
  repeat split; assumption.
Defined.

(** ** The range of the silence ratio *)

Section SilenceRange.
Import Num Analyzer Spec.
Context `{Librosa}.






End SilenceRange.


(** ** The percentile between two order statistics *)

Section Percentile.
Import Num Analyzer Spec.

Lemma insert_asc_length x l : length (insert_asc x l) = S (length l).
Proof.
  induction l as [| y l IH]; simpl; [reflexivity |].
  destruct (leb x y); simpl; [reflexivity | rewrite IH; reflexivity].
Qed.

Lemma sort_asc_length l : length (sort_asc l) = length l.
Proof.
  induction l as [| x l IH]; simpl; [reflexivity |].
  rewrite insert_asc_length, IH. reflexivity.
Qed.

Lemma sort_asc_nth_in l i : (i < length l)%nat -> In (nth i (sort_asc l) 0) l.
Proof.
  intros Hi.
  assert (Hall : Forall (fun x => In x l) (sort_asc l)).
  { apply sort_asc_forall. apply List.Forall_forall. trivial. }
  rewrite List.Forall_forall in Hall. apply Hall, nth_In.
  rewrite sort_asc_length. exact Hi.
Qed.

(** [np.percentile(a, q)] for [0 <= q <= 100] is a point between two
    elements of [a]. *)
Lemma percentile_form a q p :
  0 <= q -> q <= 100 -> percentile a q = Some p ->
  exists x y g, In x a /\ In y a /\ 0 <= g /\ g <= 1 /\ p = x + (y - x) * g.
Proof.
  intros Hq0 Hq1. destruct a as [| z a']; [discriminate |].
  unfold percentile. intros [= <-].
  set (a := z :: a'). set (n := length a).
  assert (Hn : (1 <= n)%nat) by (unfold n, a; simpl; lia).
  set (v := q / 100 * of_nat (n - 1)).
  assert (Hk : 0 <= of_nat (n - 1))
    by (change 0 with (of_nat 0); unfold of_nat; rewrite <- Zle_Qle; lia).
  assert (Hv0 : 0 <= v).
  { unfold v. apply Qmult_le_0_compat; [| exact Hk].
    apply Qle_shift_div_l; [reflexivity | lra]. }
  assert (Hv1 : v <= of_nat (n - 1)).
  { unfold v. rewrite <- (Qmult_1_l (of_nat (n - 1))) at 2.
    apply Qmult_le_compat_r; [| exact Hk].
    apply Qle_shift_div_r; [reflexivity | lra]. }
  assert (Hf0 : (0 <= Qfloor v)%Z)
    by (change 0%Z with (Qfloor 0); apply Qfloor_resp_le, Hv0).
  assert (Hf1 : (Qfloor v <= Z.of_nat (n - 1))%Z).
  { rewrite <- (Qfloor_Z (Z.of_nat (n - 1))). apply Qfloor_resp_le, Hv1. }
  set (lo := Z.to_nat (Qfloor v)).
  assert (Hlo : of_nat lo = inject_Z (Qfloor v))
    by (unfold of_nat, lo; rewrite Z2Nat.id by exact Hf0; reflexivity).
  exists (nth lo (sort_asc a) 0), (nth (Nat.min (lo + 1) (n - 1)) (sort_asc a) 0),
    (v - of_nat lo).
  split; [apply sort_asc_nth_in; fold n; unfold lo; lia |].
  split; [apply sort_asc_nth_in; fold n; lia |].
  split; [rewrite Hlo; pose proof (Qfloor_le v); lra |].
  split; [| reflexivity].
  rewrite Hlo. pose proof (Qlt_floor v) as Hlt.
  rewrite inject_Z_plus in Hlt. change (inject_Z 1) with 1 in Hlt. lra.
Qed.

Lemma between_points (lo hi x y g : Q) :
  lo <= x -> x <= hi -> lo <= y -> y <= hi -> 0 <= g -> g <= 1 ->
  lo <= x + (y - x) * g /\ x + (y - x) * g <= hi.
Proof.
  intros Hx0 Hx1 Hy0 Hy1 Hg0 Hg1.
  assert (A : 0 <= (x - lo) * (1 - g)) by (apply Qmult_le_0_compat; lra).
  assert (B : 0 <= (y - lo) * g) by (apply Qmult_le_0_compat; lra).
  assert (C : 0 <= (hi - x) * (1 - g)) by (apply Qmult_le_0_compat; lra).
  assert (D : 0 <= (hi - y) * g) by (apply Qmult_le_0_compat; lra).
  split.
  - setoid_replace (x + (y - x) * g) with (lo + ((x - lo) * (1 - g) + (y - lo) * g))
      using relation Qeq by ring.
    lra.
  - setoid_replace (x + (y - x) * g) with (hi - ((hi - x) * (1 - g) + (hi - y) * g))
      using relation Qeq by ring.
    lra.
Qed.

Lemma percentile_between (lo hi : Q) a q p :
  0 <= q -> q <= 100 -> Forall (fun e => lo <= e /\ e <= hi) a ->
  percentile a q = Some p -> lo <= p /\ p <= hi.
Proof.
  intros Hq0 Hq1 Ha Hp.
  destruct (percentile_form a q p Hq0 Hq1 Hp) as (x & y & g & Hx & Hy & Hg0 & Hg1 & ->).
  rewrite List.Forall_forall in Ha.
  destruct (Ha x Hx), (Ha y Hy). apply between_points; assumption.
Qed.

Lemma sum_loop_ge (c : Q) l a :
  Forall (Qle c) l -> a + c * of_nat (length l) <= fold_left Qplus l a.
Proof.
  intros Hl. revert a. induction Hl as [| x l Hx _ IH]; intros a.
  - cbn [fold_left length]. change (of_nat 0) with 0. lra.
  - cbn [fold_left length]. eapply Qle_trans; [| apply IH].
    unfold of_nat. rewrite Nat2Z.inj_succ. unfold Z.succ. rewrite inject_Z_plus.
    change (inject_Z 1) with 1. lra.
Qed.

Lemma mean_gt (c : Q) l : l <> [] -> Forall (Qlt c) l -> c < mean l.
Proof.
  intros Hne Hl. destruct l as [| x l]; [congruence |].
  inversion Hl as [| ? ? Hx Hl']; subst.
  assert (Hge : Forall (Qle c) l)
    by (eapply List.Forall_impl; [| exact Hl']; intros e He; apply Qlt_le_weak, He).
  pose proof (sum_loop_ge c l (0 + x) Hge) as Hs.
  assert (Hn : 0 < of_nat (length (x :: l))).
  { unfold of_nat. rewrite <- (Zlt_Qlt 0). simpl. lia. }
  unfold mean, sum. cbn [fold_left]. apply Qlt_shift_div_l; [exact Hn |].
  eapply Qlt_le_trans; [| exact Hs].
  unfold of_nat. cbn [length]. rewrite Nat2Z.inj_succ. unfold Z.succ.
  rewrite inject_Z_plus. change (inject_Z 1) with 1. lra.
Qed.

(** X5.  For a non-negative RMS series with noise floor [nf], its 10th
    percentile: the noise floor and the SNR estimate are never negative, and
    the estimate is positive, in fact above 2 nf / (nf + 1e-10), exactly
    when some frame lies strictly above twice the noise floor; otherwise it
    is 0. *)
Theorem snr_estimate_sign (rms : list Q) (nf s : Q) :
  Forall (Qle 0) rms ->
  percentile rms 10 = Some nf ->
  estimate_snr rms = Some s ->
  0 <= nf /\ 0 <= s
  /\ ((exists e, In e rms /\ 2 * nf < e) -> 2 * nf / (nf + eps) < s)
  /\ (~ (exists e, In e rms /\ 2 * nf < e) -> s = 0).
Proof.
  intros Hrms Hnf Hs.
  assert (Hnf0 : 0 <= nf).
  { destruct (percentile_form rms 10 nf ltac:(discriminate) ltac:(discriminate) Hnf)
      as (x & y & g & Hx & Hy & Hg0 & Hg1 & ->).
    rewrite List.Forall_forall in Hrms.
    pose proof (Hrms x Hx). pose proof (Hrms y Hy).
    assert (A : 0 <= x * (1 - g)) by (apply Qmult_le_0_compat; lra).
    assert (B : 0 <= y * g) by (apply Qmult_le_0_compat; lra).
    setoid_replace (x + (y - x) * g) with (x * (1 - g) + y * g)
      using relation Qeq by ring.
    lra. }
  assert (Heps : 0 < nf + eps) by (unfold eps; lra).
  unfold estimate_snr in Hs. rewrite Hnf in Hs. simpl in Hs.
  rewrite speech_mask in Hs.
  assert (Hall : Forall (Qlt (2 * nf)) (speech_frames nf rms)).
  { apply List.Forall_forall. intros e He. unfold speech_frames in He.
    apply filter_In in He. destruct He as [_ He]. apply ltb_lt, He. }
  destruct (speech_frames nf rms) as [| e0 sp] eqn:Hsp.
  - simpl in Hs. injection Hs as <-. split; [exact Hnf0 |]. split; [apply Qle_refl |].
    split; [| reflexivity].
    intros (e & He & Hlt). exfalso.
    assert (Hin : In e (speech_frames nf rms))
      by (unfold speech_frames; apply filter_In; split; [exact He | apply ltb_lt, Hlt]).
    rewrite Hsp in Hin. exact Hin.
  - cbn [length Nat.ltb Nat.leb] in Hs. injection Hs as <-.
    assert (Hmean : 2 * nf < mean (e0 :: sp)) by (apply mean_gt; [discriminate | exact Hall]).
    assert (Hgt : 2 * nf / (nf + eps) < mean (e0 :: sp) / (nf + eps)).
    { apply Qlt_shift_div_l; [exact Heps |].
      setoid_replace (2 * nf / (nf + eps) * (nf + eps)) with (2 * nf)
        using relation Qeq; [exact Hmean |].
      field. intros E. rewrite E in Heps. discriminate. }
    assert (H0 : 0 <= 2 * nf / (nf + eps))
      by (apply Qle_shift_div_l; [exact Heps | lra]).
    split; [exact Hnf0 |]. split; [lra |]. split; [intros _; exact Hgt |].
    intros Hno. exfalso. apply Hno. exists e0.
    assert (Hin : In e0 (speech_frames nf rms)) by (rewrite Hsp; left; reflexivity).
    unfold speech_frames in Hin. apply filter_In in Hin. destruct Hin as [Hin Hlt].
    split; [exact Hin | apply ltb_lt, Hlt].
Qed.

(** The series 1, 1, 1, 4, 6: the noise floor is 1 and the estimate 5. *)
Lemma snr_estimate_sign_witness :
  exists nf s,
    percentile [1; 1; 1; 4; 6] 10 = Some nf
    /\ estimate_snr [1; 1; 1; 4; 6] = Some s
    /\ 0 <= nf /\ 0 <= s
    /\ ((exists e, In e [1; 1; 1; 4; 6] /\ 2 * nf < e) -> 2 * nf / (nf + eps) < s).
Proof.
  eexists _, _. split; [reflexivity |]. split; [reflexivity |].
  pose proof (snr_estimate_sign [1; 1; 1; 4; 6] _ _
                ltac:(repeat constructor; discriminate) eq_refl eq_refl)
    as (H0 & H1 & H2 & _).
  repeat split; assumption.
Defined.

End Percentile.

(** ** A constant buffer *)

Section ConstantBuffer.
Import Num Analyzer Spec.

Lemma skipn_repeat {A} (c : A) k n : skipn k (repeat c n) = repeat c (n - k).
Proof.
  revert n. induction k as [| k IH]; intros n; [rewrite Nat.sub_0_r; reflexivity |].
  destruct n as [| n]; [reflexivity |]. simpl. apply IH.
Qed.

Lemma firstn_repeat {A} (c : A) k n : (k <= n)%nat -> firstn k (repeat c n) = repeat c k.
Proof.
  revert n. induction k as [| k IH]; intros n Hk; [reflexivity |].
  destruct n as [| n]; [lia |]. simpl. f_equal. apply IH. lia.
Qed.

Lemma frames_of_constant (c : Q) n frames :
  frame (repeat c n) 2048 512 = Some frames ->
  Forall (fun f => f = repeat c 2048) frames.
Proof.
  unfold frame.
  destruct (Nat.ltb_spec (length (repeat c n)) 2048) as [| Hn]; [discriminate |].
  destruct (Nat.ltb_spec 512 1); [discriminate |]. intros E.
  assert (E' : frames
               = map (fun i => slice (repeat c n) (i * 512) (i * 512 + 2048))
                   (seq 0 (1 + (length (repeat c n) - 2048) / 512))) by congruence.
  rewrite E'. clear E E'. rewrite repeat_length in *.
  apply List.Forall_forall. intros f Hf.
  apply in_map_iff in Hf. destruct Hf as (i & <- & Hi). apply in_seq in Hi.
  unfold slice. rewrite skipn_repeat.
  replace (i * 512 + 2048 - i * 512)%nat with 2048%nat by lia.
  apply firstn_repeat.
  pose proof (Nat.Div0.mul_div_le (n - 2048) 512). lia.
Qed.

(** X6.  A buffer of constant samples, however loud, of at least one frame:
    every frame has the same energy, none exceeds the 20th percentile, and
    the silence metrics report an effective duration of 0 and a silence
    ratio of 1.0. *)
Theorem constant_buffer_counts_as_silence (c : Q) (n : nat) (sr : Z) (duration : Q) :
  (2048 <= n)%nat ->
  silence_metrics (repeat c n) sr duration = Some (0, 1).
Proof.
  intros Hn.
  destruct (frame_some (repeat c n) 2048 512) as (frames & Hf & Hlen);
    [rewrite repeat_length; exact Hn | lia |].
  pose proof (frames_of_constant c n frames Hf) as Hall.
  set (e0 := sum (map (fun v => v * v) (repeat c 2048))).
  assert (He : Forall (fun e => e = e0) (energy_of_frames frames)).
  { unfold energy_of_frames. apply List.Forall_forall. intros e He.
    apply in_map_iff in He. destruct He as (f & <- & Hin).
    rewrite List.Forall_forall in Hall. rewrite (Hall f Hin). reflexivity. }
  destruct (percentile_some (energy_of_frames frames) 20) as [thr Hthr].
  { unfold energy_of_frames. destruct frames; [simpl in Hlen; lia | discriminate]. }
  assert (Ht : thr == e0).
  { destruct (percentile_form _ 20 thr ltac:(discriminate) ltac:(discriminate) Hthr)
      as (x & y & g & Hx & Hy & _ & _ & ->).
    rewrite List.Forall_forall in He. rewrite (He x Hx), (He y Hy). ring. }
  unfold silence_metrics, frame_length, hop_length. rewrite Hf. simpl.
  rewrite Hthr. simpl.
  replace (existsb (fun b => b) (map (fun e => gtb e thr) (energy_of_frames frames)))
    with false; [reflexivity |].
  symmetry. apply not_true_iff_false. intros Hex. apply existsb_exists in Hex.
  destruct Hex as (b & Hin & ->). apply in_map_iff in Hin.
  destruct Hin as (e & Hgt & Hin). rewrite List.Forall_forall in He.
  rewrite (He e Hin) in Hgt. apply gtb_gt in Hgt. rewrite Ht in Hgt.
  exact (Qlt_irrefl _ Hgt).
Qed.

(** 3000 samples of full-scale amplitude at 22050 Hz. *)
Lemma constant_buffer_counts_as_silence_witness :
  silence_metrics (repeat 1 3000) 22050 (3000 # 22050) = Some (0, 1).
Proof.
  apply constant_buffer_counts_as_silence. lia.
Defined.

End ConstantBuffer.

(** ** The ranked collection *)

Section Ranking.
Import Num Analyzer Spec.
Context `{Librosa}.

Lemma insert_desc_sorted x l : by_score_desc l -> by_score_desc (insert_desc x l).
Proof.
  unfold by_score_desc. intros Hl. induction Hl as [| y l Hl IH Hy]; simpl.
  - constructor; constructor.
  - destruct (geb (quality_score x) (quality_score y)) eqn:E.
    + apply geb_ge in E. constructor; [constructor; assumption |].
      constructor; [exact E |].
      eapply List.Forall_impl; [| exact Hy]. intros z Hz.
      exact (Qle_trans _ _ _ Hz E).
    + apply not_true_iff_false in E. rewrite geb_ge in E. apply Qnot_le_lt in E.
      constructor; [exact IH |].
      assert (Hin : Forall (fun b => quality_score b <= quality_score y) (x :: l))
        by (constructor; [apply Qlt_le_weak, E | exact Hy]).
      rewrite List.Forall_forall in Hin. apply List.Forall_forall. intros z Hz.
      apply Hin. apply (Permutation_in _ (insert_desc_perm x l)), Hz.
Qed.

Lemma sort_by_score_sorted l : by_score_desc (sort_by_score l).
Proof.
  induction l as [| x l IH]; simpl; [constructor | apply insert_desc_sorted, IH].
Qed.

Lemma of_score_insert c x l :
  of_score c (insert_desc x l) = of_score c (x :: l).
Proof.
  unfold of_score. induction l as [| y l IH]; [reflexivity |].
  cbn [insert_desc]. destruct (geb (quality_score x) (quality_score y)) eqn:E;
    [reflexivity |].
  cbn [List.filter] in *. rewrite IH.
  destruct (Qeq_bool (quality_score x) c) eqn:Ex; [| reflexivity].
  destruct (Qeq_bool (quality_score y) c) eqn:Ey; [| reflexivity].
  exfalso. apply Qeq_bool_iff in Ex, Ey.
  apply not_true_iff_false in E. apply E, geb_ge. rewrite Ex, Ey. apply Qle_refl.
Qed.

Lemma of_score_sort c l : of_score c (sort_by_score l) = of_score c l.
Proof.
  induction l as [| x l IH]; [reflexivity |].
  cbn [sort_by_score fold_right]. fold (sort_by_score l).
  rewrite of_score_insert. unfold of_score in *. cbn [List.filter]. rewrite IH.
  reflexivity.
Qed.

(** X7.  [analyze_all_audio] on an existing directory returns, and stores,
    the earlier records together with the record of every file whose
    analysis succeeded, ordered by descending quality score; records of
    equal score keep the order in which they were collected. *)
Theorem analyze_all_audio_ranks (fs : gmap string file) (audio_files : list string)
    (self : analyzer) :
  let collected := results self ++ omap (analyze_audio_file fs) audio_files in
  let ranked := snd (analyze_all_audio fs true audio_files self) in
  results (fst (analyze_all_audio fs true audio_files self)) = ranked
  /\ Permutation ranked collected
  /\ by_score_desc ranked
  /\ forall c, of_score c ranked = of_score c collected.
Proof.
  unfold analyze_all_audio. cbn [negb fst snd results]. rewrite analyze_each_app.
  split; [reflexivity |]. split; [apply sort_by_score_perm |].
  split; [apply sort_by_score_sorted | intros c; apply of_score_sort].
Qed.

(** X8.  [analyze_all_audio] never resets the stored results: a second call
    on the same files stores every new record twice, so the collection
    grows by the number of analyzable files at each call; and when the
    directory does not exist the call returns an empty list and leaves the
    stored results as they were. *)
Theorem analyze_all_audio_accumulates (fs : gmap string file)
    (audio_files : list string) (self : analyzer) :
  let new := omap (analyze_audio_file fs) audio_files in
  let once := fst (analyze_all_audio fs true audio_files self) in
  let twice := fst (analyze_all_audio fs true audio_files once) in
  Permutation (results twice) (results self ++ new ++ new)
  /\ length (results once) = (length (results self) + length new)%nat
  /\ length (results twice) = (length (results self) + 2 * length new)%nat
  /\ analyze_all_audio fs false audio_files self = (self, []).
Proof.
  unfold analyze_all_audio. cbn [negb fst snd results]. rewrite !analyze_each_app.
  set (new := omap (analyze_audio_file fs) audio_files).
  assert (P1 : Permutation (sort_by_score (results self ++ new)) (results self ++ new))
    by apply sort_by_score_perm.
  assert (P2 : Permutation (sort_by_score (sort_by_score (results self ++ new) ++ new))
                 (results self ++ new ++ new)).
  { rewrite sort_by_score_perm, P1, <- app_assoc. reflexivity. }
  split; [exact P2 |]. split; [| split; [| reflexivity]].
  - rewrite (Permutation_length P1), length_app. reflexivity.
  - rewrite (Permutation_length P2), !length_app. lia.
Qed.

Lemma filter_sorted (P : metrics -> bool) l :
  by_score_desc l -> by_score_desc (List.filter P l).
Proof.
  unfold by_score_desc. intros Hl. induction Hl as [| y l Hl IH Hy]; simpl;
    [constructor |].
  destruct (P y); [| exact IH]. constructor; [exact IH |].
  rewrite List.Forall_forall in Hy. apply List.Forall_forall. intros z Hz.
  apply filter_In in Hz. apply Hy, Hz.
Qed.

(** X9.  Filtering what [analyze_all_audio] stored gives a list that is
    still in descending order of score: its first record, if any, has the
    highest score among the records that pass. *)
Theorem filtered_ranking_is_ranked (fs : gmap string file) (audio_files : list string)
    (self : analyzer) (min_score min_duration max_silence : Q) :
  let ranked := fst (analyze_all_audio fs true audio_files self) in
  let filtered := snd (filter_high_quality ranked min_score min_duration max_silence) in
  by_score_desc filtered
  /\ forall best rest r,
      filtered = best :: rest ->
      In r (results ranked) -> passes min_score min_duration max_silence r ->
      quality_score r <= quality_score best.
Proof.
  cbv zeta. unfold filter_high_quality. cbn [snd].
  rewrite (append_loop (keeps min_score min_duration max_silence)). cbn [app].
  unfold analyze_all_audio. cbn [negb fst results].
  set (ranked := sort_by_score _).
  assert (Hs : by_score_desc (List.filter (keeps min_score min_duration max_silence) ranked))
    by (apply filter_sorted, sort_by_score_sorted).
  split; [exact Hs |].
  intros best rest r E Hr Hp. rewrite E in Hs.
  assert (Hin : In r (best :: rest)).
  { rewrite <- E. apply filter_In. split; [exact Hr | apply keeps_passes, Hp]. }
  destruct Hin as [<- | Hin]; [apply Qle_refl |].
  unfold by_score_desc in Hs. apply StronglySorted_inv in Hs. destruct Hs as [_ Hall].
  rewrite List.Forall_forall in Hall. apply Hall, Hin.
Qed.

Lemma filter_sublist_of_implied (P P' : metrics -> bool) l :
  (forall r, P' r = true -> P r = true) ->
  sublist (List.filter P' l) (List.filter P l).
Proof.
  intros Himp. induction l as [| x l IH]; simpl; [constructor |].
  destruct (P' x) eqn:E'.
  - rewrite (Himp x E'). constructor. exact IH.
  - destruct (P x); [constructor |]; exact IH.
Qed.

(** X10.  Stricter criteria never let more through: with a higher minimum
    score, a higher minimum duration and a lower maximum silence ratio, the
    filtered list is a sub-list, in the same order, of the list the weaker
    criteria give. *)
Theorem filter_high_quality_monotone (self : analyzer)
    (min_score min_duration max_silence min_score' min_duration' max_silence' : Q) :
  min_score <= min_score' -> min_duration <= min_duration' ->
  max_silence' <= max_silence ->
  sublist (snd (filter_high_quality self min_score' min_duration' max_silence'))
    (snd (filter_high_quality self min_score min_duration max_silence)).
Proof.
  intros Hs Hd Hm. unfold filter_high_quality. cbn [snd].
  rewrite (append_loop (keeps min_score' min_duration' max_silence')),
    (append_loop (keeps min_score min_duration max_silence)). cbn [app].
  apply filter_sublist_of_implied. intros r Hr.
  apply keeps_passes in Hr. apply keeps_passes. unfold passes in *.
  destruct Hr as (A & B & C). repeat split; eapply Qle_trans; eassumption.
Qed.

End Ranking.

(** The default criteria against stricter ones, on two records. *)
Lemma filter_high_quality_monotone_witness :
  let r (score duration silence : Q) :=
    {| m_file := "a"; filename := "a"; sample_rate := 22050%Z; duration := duration;
       file_size_mb := 1; num_samples := 2048%nat; rms_mean := 0; rms_std := 0;
       zcr_mean := 0; zcr_std := 0; spectral_centroid_mean := 0; snr_estimate := 0;
       spectral_rolloff_mean := 0; spectral_bandwidth_mean := 0;
       harmonic_noise_ratio := 1; effective_duration := 0; silence_ratio := silence;
       quality_score := score |} in
  let self := {| audio_dir := "audio_samples";
                 results := [r 90 12 (1 # 5); r 65 6 (3 # 10)] |} in
  sublist (snd (Analyzer.filter_high_quality self 80 10 (1 # 4)))
    (snd (Analyzer.filter_high_quality self 60 5 (4 # 10))).
Proof.
  intros r self. apply filter_high_quality_monotone; discriminate.
Defined.

(** * Further properties of the refinement processor *)

(** ** Stage 1: headroom and idempotence *)

Section NormalizeMore.
Import Num Refiner.
Context `{Librosa}.








End NormalizeMore.

(** ** What a stage writes *)

Section Footprint.
Import Num Refiner Spec.
Context `{Librosa}.

Lemma sf_write_other fs path y sr p :
  p <> path -> Fs.sf_write fs path y sr !! p = fs !! p.
Proof. intros Hp. unfold Fs.sf_write. apply lookup_insert_ne. congruence. Qed.

Lemma sf_write_same fs path y sr :
  Fs.sf_write fs path y sr !! path = Some (Audio y sr (encoded_size y sr)).
Proof. unfold Fs.sf_write. apply lookup_insert_eq. Qed.

Lemma shutil_copy_spec fs src dst fs' :
  Fs.shutil_copy fs src dst = Some fs' ->
  src <> dst
  /\ exists f, fs !! src = Some f /\ fs' = <[dst := f]> fs.
Proof.
  unfold Fs.shutil_copy. destruct (fs !! src) as [f |]; [| discriminate].
  destruct (bool_decide_reflect (src = dst)); [discriminate |].
  intros [= <-]. split; [assumption | eauto].
Qed.

Lemma written fs output_path y sr :
  writes_only_output fs output_path (true, Fs.sf_write fs output_path y sr).
Proof.
  split; [discriminate |]. split.
  - intros p Hp. apply sf_write_other, Hp.
  - intros _. eexists _, _, _. apply sf_write_same.
Qed.

Lemma not_written fs output_path : writes_only_output fs output_path (false, fs).
Proof. split; [reflexivity |]. split; [reflexivity | discriminate]. Qed.

Lemma stage_footprints (fs : gmap string file)
    (input_path output_path : string) (target_sr : Z) (target_duration : Q) :
  writes_only_output fs output_path
    (stage_1_normalize_audio fs input_path output_path)
  /\ writes_only_output fs output_path
       (stage_2_remove_silence fs input_path output_path)
  /\ writes_only_output fs output_path
       (stage_4_resample_optimal fs input_path output_path target_sr)
  /\ writes_only_output fs output_path
       (stage_5_extract_best_segment fs input_path output_path target_duration).
Proof.
  split; [| split; [| split]].
  - unfold stage_1_normalize_audio.
    destruct (Fs.load fs input_path) as [[y sr] |]; cbn [mbind option_bind];
      [| apply not_written].
    destruct (normalize y); cbn [mbind option_bind]; [apply written | apply not_written].
  - unfold stage_2_remove_silence.
    destruct (Fs.load fs input_path) as [[y sr] |]; cbn [mbind option_bind];
      [| apply not_written].
    destruct (sr =? 0)%Z; cbn [mbind option_bind]; [apply not_written |].
    destruct (effects_trim y); cbn [mbind option_bind];
      [apply written | apply not_written].
  - unfold stage_4_resample_optimal.
    destruct (Fs.load fs input_path) as [[y sr] |]; cbn [mbind option_bind];
      [| apply not_written].
    destruct (bool_decide (sr <> target_sr)); [| apply written].
    destruct (resample y sr target_sr); [apply written | apply not_written].
  - unfold stage_5_extract_best_segment, Fs.load.
    destruct (fs !! input_path) as [[y sr n | n] |] eqn:Hin; try apply not_written.
    destruct (sr =? 0)%Z; [apply not_written |].
    destruct (leb _ _).
    + destruct (Fs.shutil_copy fs input_path output_path) as [fs' |] eqn:Hc;
        [| apply not_written].
      apply shutil_copy_spec in Hc. destruct Hc as (_ & f & Hf & ->).
      rewrite Hin in Hf. injection Hf as <-.
      split; [discriminate |]. split.
      * intros p Hp. apply lookup_insert_ne. congruence.
      * intros _. eexists _, _, _. apply lookup_insert_eq.
    + destruct (extract_best_segment y sr target_duration);
        [apply written | apply not_written].
Qed.

(** X13.  Stages 1, 2, 4 and 5 are all-or-nothing on the file system: a
    stage that returns False has written nothing, a stage never writes any
    path but its output path (so an input at another path is preserved),
    and a stage that returns True leaves a decodable audio file at its
    output path. *)
Theorem stages_write_only_their_output (fs : gmap string file)
    (input_path output_path : string) (target_sr : Z) (target_duration : Q) :
  writes_only_output fs output_path
    (stage_1_normalize_audio fs input_path output_path)
  /\ writes_only_output fs output_path
       (stage_2_remove_silence fs input_path output_path)
  /\ writes_only_output fs output_path
       (stage_4_resample_optimal fs input_path output_path target_sr)
  /\ writes_only_output fs output_path
       (stage_5_extract_best_segment fs input_path output_path target_duration).
Proof. apply stage_footprints. Qed.

Lemma stage_3_outcome (fs : gmap string file)
    (input_path output_path : string) :
  let gate_applied :=
    '(y, sr) ← Fs.load fs input_path; spectral_gate y sr in
  match stage_3_noise_reduction fs input_path output_path with
  | Returned ok fs' =>
      (forall p, p <> output_path -> fs' !! p = fs !! p)
      /\ is_Some (fs' !! output_path)
      /\ (ok = true <-> is_Some gate_applied)
      /\ (ok = false -> input_path <> output_path
                        /\ fs' !! output_path = fs !! input_path)
  | Raised fs' =>
      fs' = fs /\ gate_applied = None
      /\ (fs !! input_path = None \/ input_path = output_path)
  end.
Proof.
  cbv zeta. unfold stage_3_noise_reduction.
  destruct (Fs.load fs input_path) as [[y sr] |] eqn:Hl; cbn [mbind option_bind].
  - destruct (spectral_gate y sr) as [y' |] eqn:Hg; cbn [mbind option_bind].
    + split; [intros p Hp; apply sf_write_other, Hp |].
      split; [rewrite sf_write_same; eauto |].
      split; [split; eauto | discriminate].
    + destruct (Fs.shutil_copy fs input_path output_path) as [fs' |] eqn:Hc.
      * apply shutil_copy_spec in Hc. destruct Hc as (Hne & f & Hf & ->).
        split; [intros p Hp; apply lookup_insert_ne; congruence |].
        split; [rewrite lookup_insert_eq; eauto |].
        split; [split; [discriminate | intros [? ?]; discriminate] |].
        intros _. split; [exact Hne | rewrite lookup_insert_eq, Hf; reflexivity].
      * split; [reflexivity |]. split; [reflexivity |].
        unfold Fs.shutil_copy in Hc. destruct (fs !! input_path); [| left; reflexivity].
        destruct (bool_decide_reflect (input_path = output_path));
          [right; assumption | discriminate].
  - destruct (Fs.shutil_copy fs input_path output_path) as [fs' |] eqn:Hc.
    + apply shutil_copy_spec in Hc. destruct Hc as (Hne & f & Hf & ->).
      split; [intros p Hp; apply lookup_insert_ne; congruence |].
      split; [rewrite lookup_insert_eq; eauto |].
      split; [split; [discriminate | intros [? ?]; discriminate] |].
      intros _. split; [exact Hne | rewrite lookup_insert_eq, Hf; reflexivity].
    + split; [reflexivity |]. split; [reflexivity |].
      unfold Fs.shutil_copy in Hc. destruct (fs !! input_path); [| left; reflexivity].
      destruct (bool_decide_reflect (input_path = output_path));
        [right; assumption | discriminate].
Qed.

(** X14.  Stage 3 either returns, having written nothing but its output
    path and leaving a file there (the denoised buffer, or on failure a
    copy of the input file, whatever it holds), or lets an exception
    escape; the exception escapes exactly when the spectral gate could not
    be applied and the fallback copy is impossible, the input file being
    missing or being the output file itself, and then nothing was
    written. *)
Theorem stage_3_returns_or_raises (fs : gmap string file)
    (input_path output_path : string) :
  let gate_applied :=
    '(y, sr) ← Fs.load fs input_path; spectral_gate y sr in
  match stage_3_noise_reduction fs input_path output_path with
  | Returned ok fs' =>
      (forall p, p <> output_path -> fs' !! p = fs !! p)
      /\ is_Some (fs' !! output_path)
      /\ (ok = true <-> is_Some gate_applied)
      /\ (ok = false -> input_path <> output_path
                        /\ fs' !! output_path = fs !! input_path)
  | Raised fs' =>
      fs' = fs /\ gate_applied = None
      /\ (fs !! input_path = None \/ input_path = output_path)
  end.
Proof. apply stage_3_outcome. Qed.

End Footprint.

(** ** Stage 5: the segment is a piece of the input *)

Section SegmentShape.
Import Num Refiner Spec.
Context `{Librosa}.

Lemma slice_infix {A} (l : list A) i j :
  exists pre post, l = pre ++ slice l i j ++ post.
Proof.
  exists (firstn i l), (skipn (j - i) (skipn i l)). unfold slice.
  rewrite firstn_skipn, firstn_skipn. reflexivity.
Qed.

Lemma py_slice_infix {A} (l : list A) i j :
  exists pre post, l = pre ++ py_slice l i j ++ post.
Proof. unfold py_slice. apply slice_infix. Qed.

Lemma py_slice_length {A} (l : list A) (i j : Z) :
  let n := Z.of_nat (length l) in
  let norm k := if (k <? 0)%Z then Z.max 0 (n + k) else Z.min k n in
  length (py_slice l i j) = (Z.to_nat (norm j) - Z.to_nat (norm i))%nat.
Proof.
  cbv zeta. unfold py_slice, slice. rewrite length_firstn, length_skipn.
  destruct (Z.ltb_spec i 0), (Z.ltb_spec j 0); lia.
Qed.

Lemma best_window_nonneg e tf : (0 <= snd (best_window e tf))%Z.
Proof.
  rewrite best_window_scan.
  destruct (scan_invariant (window_mean e tf)
              (Z.to_nat (Z.of_nat (length e) - tf + 1))) as [_ [E | (j & _ & E & _)]];
    rewrite E; simpl; lia.
Qed.

Lemma extract_best_segment_shape y sr target_duration seg :
  extract_best_segment y sr target_duration = Some seg ->
  (exists pre post, y = pre ++ seg ++ post)
  /\ ((0 <= py_int (target_duration * inject_Z sr))%Z ->
      (length seg <= Z.to_nat (py_int (target_duration * inject_Z sr)))%nat).
Proof.
  unfold extract_best_segment.
  destruct (frame y frame_length hop_length) as [frames |]; [| discriminate].
  cbn [mbind option_bind].
  pose proof (best_window_nonneg (energy_of_frames frames)
                (window_frames (energy_of_frames frames) sr target_duration)) as Hb.
  set (best := snd (best_window _ _)) in *.
  unfold segment_bounds, hop_length. change (Z.of_nat 512) with 512%Z.
  set (L := py_int (target_duration * inject_Z sr)).
  destruct (Z.ltb_spec (Z.of_nat (length y)) (best * 512 + L)); intros [= <-].
  - split; [apply py_slice_infix |]. intros HL.
    pose proof (py_slice_length y (Z.of_nat (length y) - L) (Z.of_nat (length y))) as E.
    cbv zeta in E. rewrite E.
    destruct (Z.ltb_spec (Z.of_nat (length y) - L) 0),
      (Z.ltb_spec (Z.of_nat (length y)) 0); lia.
  - split; [apply py_slice_infix |]. intros HL.
    pose proof (py_slice_length y (best * 512) (best * 512 + L)) as E.
    cbv zeta in E. rewrite E.
    destruct (Z.ltb_spec (best * 512) 0), (Z.ltb_spec (best * 512 + L) 0); lia.
Qed.

Lemma stage_5_piece (fs : gmap string file)
    (input_path output_path : string) (target_duration : Q) (fs' : gmap string file) :
  stage_5_extract_best_segment fs input_path output_path target_duration = (true, fs') ->
  exists y sr n y_segment n',
    fs !! input_path = Some (Audio y sr n)
    /\ sr <> 0%Z
    /\ fs' !! output_path = Some (Audio y_segment sr n')
    /\ (exists pre post, y = pre ++ y_segment ++ post)
    /\ ((0 < sr)%Z -> 0 <= target_duration ->
        of_nat (length y_segment) / inject_Z sr <= target_duration).
Proof.
  unfold stage_5_extract_best_segment, Fs.load.
  destruct (fs !! input_path) as [[y sr n | n] |] eqn:Hin; try discriminate.
  destruct (Z.eqb_spec sr 0) as [| Hsr]; [discriminate |].
  destruct (leb _ _) eqn:Hleb.
  - destruct (Fs.shutil_copy fs input_path output_path) as [fs1 |] eqn:Hc;
      [| discriminate].
    apply shutil_copy_spec in Hc. destruct Hc as (_ & f & Hf & ->).
    rewrite Hin in Hf. injection Hf as <-. intros [= <-].
    exists y, sr, n, y, n. split; [reflexivity |]. split; [exact Hsr |].
    split; [apply lookup_insert_eq |].
    split; [exists [], []; rewrite app_nil_r; reflexivity |].
    intros _ _. apply leb_le, Hleb.
  - destruct (extract_best_segment y sr target_duration) as [seg |] eqn:He;
      [| discriminate].
    intros [= <-]. destruct (extract_best_segment_shape _ _ _ _ He) as [Hinf Hlen].
    exists y, sr, n, seg, (encoded_size seg sr). split; [reflexivity |].
    split; [exact Hsr |]. split; [apply sf_write_same |]. split; [exact Hinf |].
    intros Hpos Ht.
    assert (Hs : 0 < inject_Z sr) by (rewrite <- (Zlt_Qlt 0); exact Hpos).
    assert (HT : 0 <= target_duration * inject_Z sr)
      by (apply Qmult_le_0_compat; [exact Ht | apply Qlt_le_weak, Hs]).
    destruct (py_int_bounds _ HT) as [HL0 HL1]. specialize (Hlen HL0).
    apply Qle_shift_div_r; [exact Hs |].
    eapply Qle_trans; [| exact HL1]. unfold of_nat. rewrite <- Zle_Qle. lia.
Qed.


End SegmentShape.


(** ** The whole run *)

Section Run.
Import Num Refiner Spec.
Context `{Librosa}.

Lemma cleanup_other fs stage_files final p :
  ~ In p stage_files -> cleanup fs stage_files final !! p = fs !! p.
Proof.
  unfold cleanup. revert fs.
  induction stage_files as [| s l IH]; intros fs Hp; cbn [fold_left]; [reflexivity |].
  rewrite IH by (intros Hin; apply Hp; right; exact Hin).
  destruct (Fs.exists_ fs s && negb (bool_decide (s = final))); [| reflexivity].
  unfold Fs.unlink. apply lookup_delete_ne. intros ->. apply Hp. left. reflexivity.
Qed.

Lemma cleanup_absent fs stage_files final p :
  fs !! p = None -> cleanup fs stage_files final !! p = None.
Proof.
  unfold cleanup. revert fs.
  induction stage_files as [| s l IH]; intros fs Hp; cbn [fold_left]; [exact Hp |].
  apply IH. destruct (Fs.exists_ fs s && negb (bool_decide (s = final))); [| exact Hp].
  unfold Fs.unlink. rewrite lookup_delete. destruct (decide (s = p)); [reflexivity | exact Hp].
Qed.

Lemma cleanup_removes fs stage_files final s :
  In s stage_files -> s <> final -> cleanup fs stage_files final !! s = None.
Proof.
  unfold cleanup. revert fs.
  induction stage_files as [| s' l IH]; intros fs Hin Hne; [destruct Hin |].
  cbn [fold_left]. destruct (decide (s' = s)) as [-> | Hdiff].
  - apply cleanup_absent. unfold Fs.exists_.
    destruct (bool_decide_reflect (is_Some (fs !! s))) as [Hs | Hs]; cbn [andb].
    + rewrite bool_decide_false by exact Hne. cbn [negb].
      unfold Fs.unlink. apply lookup_delete_eq.
    + destruct (fs !! s) eqn:E; [exfalso; apply Hs; eauto | reflexivity].
  - apply IH; [| exact Hne]. destruct Hin as [-> | Hin]; [congruence | exact Hin].
Qed.

Lemma stage_4_rate fs input_path output_path target_sr fs' :
  stage_4_resample_optimal fs input_path output_path target_sr = (true, fs') ->
  exists y n, fs' !! output_path = Some (Audio y target_sr n).
Proof.
  unfold stage_4_resample_optimal.
  destruct (Fs.load fs input_path) as [[y sr] |]; cbn [mbind option_bind];
    [| discriminate].
  destruct (bool_decide (sr <> target_sr)).
  - destruct (resample y sr target_sr); [| discriminate].
    intros [= <-]. eexists _, _. apply sf_write_same.
  - intros [= <-]. eexists _, _. apply sf_write_same.
Qed.

Lemma run_stages_success fs input_path s1 s2 s3 s4 final i o d r z fs' :
  run_stages fs input_path s1 s2 s3 s4 final = Returned (Success i o d r z) fs' ->
  i = input_path /\ o = final /\ r = 22050%Z /\ 0 <= d /\ d <= 15
  /\ exists y n, fs' !! final = Some (Audio y 22050 n)
                 /\ d = of_nat (length y) / inject_Z 22050
                 /\ z = inject_Z n / inject_Z (1024 * 1024).
Proof.
  unfold run_stages.
  destruct (stage_1_normalize_audio fs input_path s1) as [ok1 fs1].
  destruct (stage_2_remove_silence fs1 s1 s2) as [ok2 fs2].
  destruct (stage_3_noise_reduction fs2 s2 s3) as [ok3 fs3 | fs3]; [| discriminate].
  destruct (stage_4_resample_optimal fs3 s3 s4 22050) as [ok4 fs4] eqn:H4.
  destruct (stage_5_extract_best_segment fs4 s4 final 15) as [ok5 fs5] eqn:H5.
  destruct ok1, ok2, ok3, ok4, ok5; cbn [andb]; try discriminate.
  destruct (stage_4_rate _ _ _ _ _ H4) as (y4 & n4 & Hs4).
  destruct (stage_5_piece _ _ _ _ _ H5)
    as (y & sr & n & seg & n' & Hin & _ & Hout & _ & Hdur).
  rewrite Hs4 in Hin. injection Hin as <- <- <-.
  unfold Fs.exists_, Fs.load, Fs.stat_size. rewrite cleanup_keeps_final, Hout.
  rewrite bool_decide_true by eauto. cbn [fmap option_fmap option_map file_size].
  change (22050 =? 0)%Z with false. cbv iota. intros E.
  assert (Ei : i = input_path) by congruence.
  assert (Eo : o = final) by congruence.
  assert (Ed : d = of_nat (length seg) / inject_Z 22050) by congruence.
  assert (Er : r = 22050%Z) by congruence.
  assert (Ez : z = inject_Z n' / inject_Z (1024 * 1024)) by congruence.
  assert (Ef : fs' = cleanup fs5 [s1; s2; s3; s4] final) by congruence.
  clear E. subst i o d r z fs'.
  split; [reflexivity |]. split; [reflexivity |]. split; [reflexivity |].
  split.
  { apply Qle_shift_div_l; [reflexivity |]. rewrite Qmult_0_l.
    unfold of_nat. rewrite <- (Zle_Qle 0). lia. }
  split; [apply Hdur; [reflexivity | discriminate] |].
  exists seg, n'. rewrite cleanup_keeps_final. repeat split. exact Hout.
Qed.

(** X16.  A run that [process_audio_file] reports as successful names the
    input and the final path, and its final file is there, at 22050 Hz and
    at most 15 s long; the reported duration, sample rate and size are
    those of that file. *)
Theorem successful_run_is_short_and_resampled (output_dir : string)
    (fs : gmap string file) (input_path : string) (output_name : option string)
    (i o : string) (d : Q) (r : Z) (z : Q) (fs' : gmap string file) :
  process_audio_file output_dir fs input_path output_name
  = Returned (Success i o d r z) fs' ->
  i = input_path /\ o = final_path output_dir input_path output_name
  /\ r = 22050%Z /\ 0 <= d /\ d <= 15
  /\ exists y n, fs' !! o = Some (Audio y 22050 n)
                 /\ d = of_nat (length y) / inject_Z 22050
                 /\ z = inject_Z n / inject_Z (1024 * 1024).
Proof.
  unfold process_audio_file. intros Hrun.
  destruct (run_stages_success _ _ _ _ _ _ _ _ _ _ _ _ _ Hrun)
    as (-> & -> & -> & Hd0 & Hd1 & Hfile).
  repeat split; assumption.
Qed.

(** X17.  When the file to refine cannot be decoded, or decodes to an empty
    buffer, and no stage-1 or stage-2 file is left over from an earlier
    run, [process_audio_file] does not return a failure record: stages 1
    and 2 fail, the fallback copy of stage 3 finds no file to copy, and its
    exception escapes the call, nothing having been written. *)
Theorem undecodable_input_raises (output_dir : string) (fs : gmap string file)
    (input_path : string) (output_name : option string) :
  (Fs.load fs input_path = None \/ exists sr, Fs.load fs input_path = Some ([], sr)) ->
  fs !! stage_path output_dir "stage1_norm_" input_path = None ->
  fs !! stage_path output_dir "stage2_trimmed_" input_path = None ->
  process_audio_file output_dir fs input_path output_name = Raised fs.
Proof.
  unfold process_audio_file.
  generalize (stage_path output_dir "stage1_norm_" input_path)
    (stage_path output_dir "stage2_trimmed_" input_path)
    (stage_path output_dir "stage3_denoised_" input_path)
    (stage_path output_dir "stage4_resampled_" input_path)
    (final_path output_dir input_path output_name).
  intros s1 s2 s3 s4 final Hin H1 H2. unfold run_stages.
  assert (E1 : stage_1_normalize_audio fs input_path s1 = (false, fs)).
  { unfold stage_1_normalize_audio. destruct Hin as [-> | [sr ->]]; reflexivity. }
  rewrite E1.
  assert (E2 : stage_2_remove_silence fs s1 s2 = (false, fs)).
  { unfold stage_2_remove_silence, Fs.load. rewrite H1. reflexivity. }
  rewrite E2. unfold stage_3_noise_reduction, Fs.load, Fs.shutil_copy. rewrite H2.
  reflexivity.
Qed.

Lemma run_stages_footprint fs input_path s1 s2 s3 s4 final res fs' :
  run_stages fs input_path s1 s2 s3 s4 final = Returned res fs' ->
  (forall p, ~ In p [s1; s2; s3; s4; final] -> fs' !! p = fs !! p)
  /\ (forall s, In s [s1; s2; s3; s4] -> s <> final -> fs' !! s = None).
Proof.
  unfold run_stages.
  destruct (stage_1_normalize_audio fs input_path s1) as [ok1 fs1] eqn:H1.
  destruct (stage_2_remove_silence fs1 s1 s2) as [ok2 fs2] eqn:H2.
  pose proof (stage_3_outcome fs2 s2 s3) as H3. cbv zeta in H3.
  destruct (stage_3_noise_reduction fs2 s2 s3) as [ok3 fs3 | fs3]; [| discriminate].
  destruct (stage_4_resample_optimal fs3 s3 s4 22050) as [ok4 fs4] eqn:H4.
  destruct (stage_5_extract_best_segment fs4 s4 final 15) as [ok5 fs5] eqn:H5.
  cbv zeta. intros Hres.
  assert (Hfs : fs' = cleanup fs5 [s1; s2; s3; s4] final).
  { revert Hres.
    repeat match goal with
           | |- context [if ?b then _ else _] => destruct b
           | |- context [match ?o with Some _ => _ | None => _ end] => destruct o
           | |- context [let '(_, _) := ?p in _] => destruct p
           end;
      congruence. }
  clear Hres. subst fs'. split.
  - intros p Hp. rewrite cleanup_other by (intros Hin; apply Hp; simpl in *; tauto).
    destruct (stage_footprints fs input_path s1 22050 15)
      as ((_ & F1 & _) & _).
    destruct (stage_footprints fs1 s1 s2 22050 15)
      as (_ & (_ & F2 & _) & _).
    destruct (stage_footprints fs3 s3 s4 22050 15)
      as (_ & _ & (_ & F4 & _) & _).
    destruct (stage_footprints fs4 s4 final 22050 15)
      as (_ & _ & _ & (_ & F5 & _)).
    destruct H3 as (F3 & _).
    rewrite H1 in F1. rewrite H2 in F2. rewrite H4 in F4. rewrite H5 in F5.
    cbn [snd] in *.
    rewrite F5, F4, F3, F2, F1; [reflexivity | ..];
      intros ->; apply Hp; simpl; tauto.
  - intros s Hs Hne. apply cleanup_removes; assumption.
Qed.

Lemma default_final_is_no_stage_file output_dir input_path prefix :
  In prefix ["stage1_norm_"; "stage2_trimmed_"; "stage3_denoised_"; "stage4_resampled_"] ->
  stage_path output_dir prefix input_path <> final_path output_dir input_path None.
Proof.
  unfold stage_path, final_path, in_dir. intros Hin E.
  apply (inj (String.app output_dir)) in E.
  cbn [In] in Hin. destruct Hin as [<- | [<- | [<- | [<- | []]]]]; discriminate.
Qed.

(** X18.  A run of [process_audio_file] that returns, successful or not,
    has touched no file but its four intermediate files and its final
    file, so an input stored elsewhere is preserved; and every intermediate
    file other than the final file is gone.  With the default output name
    none of the four intermediate files survives. *)
Theorem returned_run_cleans_up (output_dir : string) (fs : gmap string file)
    (input_path : string) (output_name : option string)
    (res : refinement_result) (fs' : gmap string file) :
  process_audio_file output_dir fs input_path output_name = Returned res fs' ->
  let s1 := stage_path output_dir "stage1_norm_" input_path in
  let s2 := stage_path output_dir "stage2_trimmed_" input_path in
  let s3 := stage_path output_dir "stage3_denoised_" input_path in
  let s4 := stage_path output_dir "stage4_resampled_" input_path in
  let final := final_path output_dir input_path output_name in
  (forall p, ~ In p [s1; s2; s3; s4; final] -> fs' !! p = fs !! p)
  /\ (forall s, In s [s1; s2; s3; s4] -> s <> final -> fs' !! s = None)
  /\ (output_name = None -> forall s, In s [s1; s2; s3; s4] -> fs' !! s = None).
Proof.
  unfold process_audio_file. intros Hrun. cbv zeta.
  destruct (run_stages_footprint _ _ _ _ _ _ _ _ _ Hrun) as [Hother Hgone].
  split; [exact Hother |]. split; [exact Hgone |].
  intros -> s Hs. apply Hgone; [exact Hs |].
  cbn [In] in Hs.
  destruct Hs as [<- | [<- | [<- | [<- | []]]]];
    apply default_final_is_no_stage_file; simpl; tauto.
Qed.

End Run.

(** The loud clip of three samples, refined into the directory "out". *)
Lemma successful_run_is_short_and_resampled_witness :
  exists d z fs',
    @Refiner.process_audio_file (Fixture.backend true) "out" Fixture.disk "loud" None
    = Returned (Success "loud" "out/refined_loud.wav" d 22050 z) fs'
    /\ 0 <= d /\ d <= 15
    /\ exists y n, fs' !! "out/refined_loud.wav" = Some (Audio y 22050 n).
Proof.
  assert (Hrun : exists d z fs',
             @Refiner.process_audio_file (Fixture.backend true) "out" Fixture.disk
               "loud" None
             = Returned (Success "loud" "out/refined_loud.wav" d 22050 z) fs')
    by (eexists _, _, _; vm_compute; reflexivity).
  destruct Hrun as (d & z & fs' & E). exists d, z, fs'. split; [exact E |].
  destruct (@successful_run_is_short_and_resampled (Fixture.backend true) "out"
              Fixture.disk "loud" None _ _ _ _ _ _ E)
    as (_ & _ & _ & Hd0 & Hd1 & y & n & Hfile & _).
  split; [exact Hd0 |]. split; [exact Hd1 |]. exists y, n. exact Hfile.
Defined.

(** The undecodable file of the worked examples. *)
Lemma undecodable_input_raises_witness :
  @Refiner.process_audio_file (Fixture.backend true) "out" Fixture.disk "broken" None
  = Raised Fixture.disk.
Proof.
  apply (@undecodable_input_raises (Fixture.backend true) "out" Fixture.disk
           "broken" None); [left |..]; reflexivity.
Defined.

(** The loud clip again: the input is still there, the stage files are not. *)
Lemma returned_run_cleans_up_witness :
  exists res fs',
    @Refiner.process_audio_file (Fixture.backend true) "out" Fixture.disk "loud" None
    = Returned res fs'
    /\ fs' !! "loud" = Fixture.disk !! "loud"
    /\ fs' !! "out/stage1_norm_loud.wav" = None
    /\ fs' !! "out/stage4_resampled_loud.wav" = None.
Proof.
  assert (Hrun : exists res fs',
             @Refiner.process_audio_file (Fixture.backend true) "out" Fixture.disk
               "loud" None = Returned res fs')
    by (eexists _, _; vm_compute; reflexivity).
  destruct Hrun as (res & fs' & E). exists res, fs'. split; [exact E |].
  destruct (@returned_run_cleans_up (Fixture.backend true) "out" Fixture.disk "loud"
              None res fs' E) as (Hother & _ & Hgone).
  split; [| split].
  - apply Hother. cbn. intros [E1 | [E1 | [E1 | [E1 | [E1 | []]]]]]; discriminate.
  - apply (Hgone eq_refl). cbn. left. reflexivity.
  - apply (Hgone eq_refl). cbn. right. right. right. left. reflexivity.
Defined.

(** ** Stage 5: the window never overruns *)

Section NoOverrun.
Import Num Refiner Spec.

Lemma samples_below_next_frame (T : Q) :
  0 <= T -> (py_int T < (py_int (T / of_nat 512) + 1) * 512)%Z.
Proof.
  intros HT.
  assert (HT' : 0 <= T / of_nat 512)
    by (apply Qle_shift_div_l; [reflexivity | rewrite Qmult_0_l; exact HT]).
  destruct (py_int_bounds T HT) as [_ Hle].
  rewrite (py_int_floor _ HT'). pose proof (Qlt_floor (T / of_nat 512)) as Hlt.
  rewrite Zlt_Qlt. eapply Qle_lt_trans; [exact Hle |].
  rewrite inject_Z_mult.
  destruct (Qlt_le_dec T (inject_Z (Qfloor (T / of_nat 512) + 1) * inject_Z 512))
    as [Hok | Hbad]; [exact Hok |].
  apply (Qle_shift_div_l _ _ (of_nat 512)) in Hbad; [| reflexivity].
  exfalso. exact (Qlt_not_le _ _ Hlt Hbad).
Qed.

Lemma window_fits (len ne n : nat) (z L best : Z) :
  (2048 <= len)%nat -> ne = (1 + n)%nat -> (512 * n <= len - 2048)%nat ->
  (1 <= z <= Z.of_nat ne)%Z -> (0 <= L < Z.of_nat len)%Z -> (L < (z + 1) * 512)%Z ->
  (0 <= best < Z.of_nat ne - z + 1)%Z ->
  (best * 512 + L <= Z.of_nat len)%Z.
Proof. intros. lia. Qed.

(** X19.  On a buffer longer than the target duration, of at least one
    frame and with target_duration x sample_rate >= 512, the window that
    stage 5 selects always fits in the buffer: the segment starts at the
    first sample of the best frame window, and the branch that shifts it
    back from the end of the buffer is never taken. *)
Theorem best_segment_never_overruns (y : list Q) (sr : Z) (target_duration : Q) :
  (0 < sr)%Z ->
  target_duration < of_nat (length y) / inject_Z sr ->
  (2048 <= length y)%nat ->
  512 <= target_duration * inject_Z sr ->
  let e := frame_energy y in
  let best := snd (best_window e (window_frames e sr target_duration)) in
  let L := py_int (target_duration * inject_Z sr) in
  (0 <= best * 512)%Z
  /\ (best * 512 + L <= Z.of_nat (length y))%Z
  /\ segment_bounds (length y) sr target_duration best = ((best * 512)%Z, (best * 512 + L)%Z)
  /\ extract_best_segment y sr target_duration
     = Some (py_slice y (best * 512) (best * 512 + L)).
Proof.
  intros Hsr Hlong Hlen Hbig e best L.
  destruct (frame_some y 2048 512 Hlen ltac:(lia)) as (frames & Hf & Hn).
  assert (Ee : e = energy_of_frames frames)
    by (unfold e, frame_energy; rewrite Hf; reflexivity).
  assert (Hne : length e = (1 + (length y - 2048) / 512)%nat)
    by (rewrite Ee; unfold energy_of_frames; rewrite length_map; exact Hn).
  assert (Hene : e <> []) by (destruct e; [simpl in Hne; lia | discriminate]).
  set (tf := window_frames e sr target_duration) in *.
  pose proof (window_frames_bounds e sr target_duration Hene Hbig) as Htf. fold tf in Htf.
  assert (HT : 0 <= target_duration * inject_Z sr)
    by (apply Qle_trans with 512; [discriminate | exact Hbig]).
  pose proof (longer_than_target _ _ _ Hsr Hlong HT) as HL. fold L in HL.
  pose proof (samples_below_next_frame _ HT) as Hnext. fold L in Hnext.
  assert (Hw : forall i, 0 <= window_mean e tf i)
    by (intros i; rewrite Ee; apply window_mean_nonneg).
  assert (Hb : (0 <= best < Z.of_nat (length e) - tf + 1)%Z).
  { pose proof (scan_leftmost_max (window_mean e tf)
                  (Z.to_nat (Z.of_nat (length e) - tf + 1)) ltac:(lia) Hw) as Hscan.
    cbv zeta in Hscan. rewrite <- (best_window_scan e tf) in Hscan.
    rewrite Z2Nat.id in Hscan by lia. exact (proj1 Hscan). }
  assert (Hfit : (best * 512 + L <= Z.of_nat (length y))%Z).
  { pose proof (Nat.Div0.mul_div_le (length y - 2048) 512) as Hdiv.
    unfold tf, window_frames, hop_length in Hb, Htf.
    destruct (Z.ltb_spec (Z.of_nat (length e))
                (py_int (target_duration * inject_Z sr / of_nat 512))) as [Hc | Hc].
    - clear - Hb HL. lia.
    - exact (window_fits (length y) (length e) _ _ L best
               Hlen Hne Hdiv Htf HL Hnext Hb). }
  assert (Hbounds : segment_bounds (length y) sr target_duration best
                    = ((best * 512)%Z, (best * 512 + L)%Z)).
  { unfold segment_bounds, hop_length. change (Z.of_nat 512) with 512%Z. fold L.
    destruct (Z.ltb_spec (Z.of_nat (length y)) (best * 512 + L)); [lia | reflexivity]. }
  split; [lia |]. split; [exact Hfit |]. split; [exact Hbounds |].
  unfold extract_best_segment, frame_length, hop_length. rewrite Hf.
  cbn [mbind option_bind]. rewrite <- Ee. fold tf. fold best.
  fold hop_length. rewrite Hbounds. reflexivity.
Qed.

(** 3072 samples at 1000 Hz and a target of 1.5 s. *)
Lemma best_segment_never_overruns_witness :
  let e := frame_energy Fixture.long_clip in
  let best := snd (best_window e (window_frames e 1000 (3 # 2))) in
  let L := py_int ((3 # 2) * inject_Z 1000) in
  (0 <= best * 512)%Z
  /\ (best * 512 + L <= Z.of_nat (length Fixture.long_clip))%Z
  /\ segment_bounds (length Fixture.long_clip) 1000 (3 # 2) best
     = ((best * 512)%Z, (best * 512 + L)%Z)
  /\ extract_best_segment Fixture.long_clip 1000 (3 # 2)
     = Some (py_slice Fixture.long_clip (best * 512) (best * 512 + L)).
Proof.
  apply (best_segment_never_overruns Fixture.long_clip 1000 (3 # 2)).
  - reflexivity.
  - reflexivity.
  - unfold Fixture.long_clip. rewrite length_app, !repeat_length. lia.
  - discriminate.
Defined.

End NoOverrun.

(** ** The batch of refinements *)

Section Batch.
Import Num Refiner Spec.
Context `{Librosa}.

Lemma pretty_N_go_no_sep (x : N) (s : string) :
  occurs "_"%char s = false -> occurs "_"%char (pretty_N_go x s) = false.
Proof.
  revert s. induction (N.lt_wf_0 x) as [x _ IH]. intros s Hs.
  assert (x = 0 \/ 0 < x)%N as [-> | Hx] by lia.
  - rewrite pretty_N_go_0. exact Hs.
  - rewrite pretty_N_go_step by exact Hx. apply IH.
    + apply N.div_lt; [exact Hx | reflexivity].
    + cbn [occurs]. rewrite Hs. unfold pretty_N_char.
      repeat case_match; reflexivity.
Qed.

Lemma pretty_nat_no_sep (i : nat) : occurs "_"%char (pretty i) = false.
Proof.
  unfold pretty, pretty_nat, pretty, pretty_N.
  case_decide; [reflexivity |]. apply pretty_N_go_no_sep. reflexivity.
Qed.

Lemma separated_prefix (c : Ascii.ascii) (u v a b : string) :
  occurs c u = false -> occurs c v = false ->
  u +:+ String c a = v +:+ String c b -> u = v.
Proof.
  revert v. induction u as [| x u IH]; intros [| y v]; cbn [occurs]; intros Hu Hv E.
  - reflexivity.
  - exfalso. change (String c a = String y (v +:+ String c b)) in E.
    assert (y = c) by congruence. subst y.
    rewrite bool_decide_eq_true_2 in Hv by reflexivity. discriminate.
  - exfalso. change (String x (u +:+ String c a) = String c b) in E.
    assert (x = c) by congruence. subst x.
    rewrite bool_decide_eq_true_2 in Hu by reflexivity. discriminate.
  - change (String x (u +:+ String c a) = String y (v +:+ String c b)) in E.
    apply orb_false_iff in Hu as [_ Hu]. apply orb_false_iff in Hv as [_ Hv].
    assert (x = y) by congruence. subst y. f_equal.
    apply IH; [exact Hu | exact Hv | congruence].
Qed.

Lemma top_name_inj (i j : nat) (f g : string) :
  top_name i f = top_name j g -> i = j.
Proof.
  unfold top_name. intros E.
  apply (inj (String.app "refined_top")) in E.
  apply (inj pretty).
  apply (separated_prefix "_"%char _ _ (path_stem f +:+ ".wav") (path_stem g +:+ ".wav"));
    [apply pretty_nat_no_sep | apply pretty_nat_no_sep | exact E].
Qed.

Lemma stage_is_no_top_file output_dir prefix input_path i file :
  In prefix stage_prefixes ->
  stage_path output_dir prefix input_path <> in_dir output_dir (top_name i file).
Proof.
  unfold stage_path, in_dir, top_name, stage_prefixes. intros Hin E.
  apply (inj (String.app output_dir)) in E.
  cbn [In] in Hin. destruct Hin as [<- | [<- | [<- | [<- | []]]]]; discriminate.
Qed.

Lemma in_dir_inj output_dir a b : in_dir output_dir a = in_dir output_dir b -> a = b.
Proof.
  unfold in_dir. intros E. apply (inj (String.app output_dir)) in E.
  apply (inj (String.app "/")) in E. exact E.
Qed.

(** A run at rank [i] touches no file that another rank names. *)
Lemma other_rank_untouched output_dir fs file i res fs' j g :
  process_audio_file output_dir fs file (Some (top_name i file)) = Returned res fs' ->
  j <> i ->
  fs' !! in_dir output_dir (top_name j g) = fs !! in_dir output_dir (top_name j g).
Proof.
  unfold process_audio_file. intros Hrun Hji.
  destruct (run_stages_footprint _ _ _ _ _ _ _ _ _ Hrun) as [Hother _].
  apply Hother. cbn [In]. unfold final_path.
  intros [E | [E | [E | [E | [E | []]]]]].
  5: apply in_dir_inj, top_name_inj in E; congruence.
  all: eapply stage_is_no_top_file; [| exact E];
    unfold stage_prefixes; cbn [In]; tauto.
Qed.

Lemma run_reports output_dir fs r i a b c d e fs' :
  process_audio_file output_dir fs (m_file r) (Some (top_name i (m_file r)))
  = Returned (Success a b c d e) fs' ->
  reports output_dir fs' (Success a b c d e) (i, r).
Proof.
  unfold process_audio_file. intros Hrun.
  destruct (run_stages_success _ _ _ _ _ _ _ _ _ _ _ _ _ Hrun)
    as (-> & -> & -> & _ & Hd & y & n & Hfile & -> & ->).
  exists y, n. unfold final_path in *. cbn [fst snd]. auto.
Qed.

Lemma process_each_reports output_dir l :
  forall fs i processed earlier out fs',
    process_each output_dir fs i l processed = Returned out fs' ->
    Forall2 (reports output_dir fs) processed earlier ->
    List.Forall (fun jr => (fst jr < i)%nat) earlier ->
    exists kept,
      sublist kept (ranked i l)
      /\ Forall2 (reports output_dir fs') out (earlier ++ kept).
Proof.
  induction l as [| r l IH]; intros fs i processed earlier out fs' Hrun Hacc Hlt.
  - cbn [process_each] in Hrun. assert (out = processed) by congruence.
    assert (fs' = fs) by congruence. subst. exists [].
    split; [constructor | rewrite app_nil_r; exact Hacc].
  - cbn [process_each] in Hrun.
    destruct (process_audio_file output_dir fs (m_file r)
                (Some (top_name i (m_file r)))) as [res fs1 | fs1] eqn:Hone;
      [| discriminate].
    assert (Hacc1 : Forall2 (reports output_dir fs1) processed earlier).
    { clear Hrun IH. induction Hacc as [| res0 jr ps es Hrep Hacc IHacc];
        constructor.
      - destruct Hrep as (y & n & E & Hfile & Hd). exists y, n.
        split; [exact E |]. split; [| exact Hd].
        rewrite <- Hfile. eapply other_rank_untouched; [exact Hone |].
        apply List.Forall_inv in Hlt. lia.
      - apply IHacc. apply List.Forall_inv_tail in Hlt. exact Hlt. }
    destruct res as [a b c d e |].
    + destruct (IH fs1 (S i) (processed ++ [Success a b c d e]) (earlier ++ [(i, r)])
                  out fs' Hrun) as (kept & Hsub & Hout).
      * apply Forall2_app; [exact Hacc1 |]. constructor; [| constructor].
        exact (run_reports _ _ _ _ _ _ _ _ _ _ Hone).
      * apply List.Forall_app. split.
        -- eapply List.Forall_impl; [| exact Hlt]. cbn beta. intros; lia.
        -- constructor; [cbn [fst]; lia | constructor].
      * exists ((i, r) :: kept). split.
        -- change (ranked i (r :: l)) with ((i, r) :: ranked (S i) l).
           constructor. exact Hsub.
        -- rewrite <- app_assoc in Hout. exact Hout.
    + destruct (IH fs1 (S i) processed earlier out fs' Hrun Hacc1) as (kept & Hsub & Hout).
      * eapply List.Forall_impl; [| exact Hlt]. cbn beta. intros; lia.
      * exists kept. split; [| exact Hout].
        change (ranked i (r :: l)) with ((i, r) :: ranked (S i) l).
        constructor. exact Hsub.
Qed.

(** X20.  When [process_high_quality_files] returns, every entry of its
    list is a success record, and the entries are the reports of some of
    the records of [quality_results[:top_n]], in their order: each names the
    file of its record and the output [refined_top<rank>_<stem>.wav], where
    the rank is the position of the record among the candidates, not among
    the successes.  The file each entry names is still there when the
    batch ends, at 22050 Hz, no longer than 15 s and with the reported
    duration and size: no later run of the batch has overwritten it. *)
Theorem batch_reports_refined_files (output_dir : string) (fs : gmap string file)
    (quality_results : list metrics) (top_n : Z)
    (processed : list refinement_result) (fs' : gmap string file) :
  process_high_quality_files output_dir fs quality_results top_n
  = Returned processed fs' ->
  exists kept,
    sublist kept (ranked 1 (py_slice quality_results 0 top_n))
    /\ Forall2 (reports output_dir fs') processed kept.
Proof.
  unfold process_high_quality_files. intros Hrun.
  apply (process_each_reports _ _ _ _ _ [] _ _ Hrun); constructor.
Qed.

Lemma run_stage_files output_dir fs file i res fs' :
  process_audio_file output_dir fs file (Some (top_name i file)) = Returned res fs' ->
  (forall p, (forall name, p <> in_dir output_dir name) -> fs' !! p = fs !! p)
  /\ (forall prefix, In prefix stage_prefixes ->
        fs' !! stage_path output_dir prefix file = None)
  /\ (forall prefix x, In prefix stage_prefixes ->
        fs !! stage_path output_dir prefix x = None ->
        fs' !! stage_path output_dir prefix x = None).
Proof.
  unfold process_audio_file. intros Hrun.
  destruct (run_stages_footprint _ _ _ _ _ _ _ _ _ Hrun) as [Hother Hgone].
  assert (Hown : forall prefix, In prefix stage_prefixes ->
            fs' !! stage_path output_dir prefix file = None).
  { intros prefix Hp. apply Hgone.
    - unfold stage_prefixes in Hp. cbn [In] in *.
      destruct Hp as [<- | [<- | [<- | [<- | []]]]]; tauto.
    - unfold final_path. apply stage_is_no_top_file. exact Hp. }
  split; [| split; [exact Hown |]].
  - intros p Hp. apply Hother. cbn [In]. unfold stage_path, final_path.
    intros [E | [E | [E | [E | [E | []]]]]]; exact (Hp _ (eq_sym E)).
  - intros prefix x Hp Habs.
    set (s := stage_path output_dir prefix x) in *.
    destruct (in_dec (fun a b : string => decide (a = b)) s
                [stage_path output_dir "stage1_norm_" file;
                 stage_path output_dir "stage2_trimmed_" file;
                 stage_path output_dir "stage3_denoised_" file;
                 stage_path output_dir "stage4_resampled_" file]) as [Hin | Hout].
    + apply Hgone; [exact Hin |].
      unfold s, final_path. apply stage_is_no_top_file. exact Hp.
    + rewrite Hother; [exact Habs |]. cbn [In] in *.
      intros [E | [E | [E | [E | [E | []]]]]]; try tauto.
      unfold s, final_path in E. symmetry in E.
      exact (stage_is_no_top_file _ _ _ _ _ Hp E).
Qed.

Lemma process_each_footprint output_dir l :
  forall fs i processed out fs',
    process_each output_dir fs i l processed = Returned out fs' ->
    (forall p, (forall name, p <> in_dir output_dir name) -> fs' !! p = fs !! p)
    /\ (forall prefix x, In prefix stage_prefixes ->
          fs !! stage_path output_dir prefix x = None ->
          fs' !! stage_path output_dir prefix x = None)
    /\ (forall r prefix, In r l -> In prefix stage_prefixes ->
          fs' !! stage_path output_dir prefix (m_file r) = None).
Proof.
  induction l as [| r l IH]; intros fs i processed out fs' Hrun.
  - cbn [process_each] in Hrun. assert (fs' = fs) by congruence. subst.
    split; [reflexivity |]. split; [tauto | intros ? ? []].
  - cbn [process_each] in Hrun.
    destruct (process_audio_file output_dir fs (m_file r)
                (Some (top_name i (m_file r)))) as [res fs1 | fs1] eqn:Hone;
      [| discriminate].
    destruct (run_stage_files _ _ _ _ _ _ Hone) as (Hout1 & Hown1 & Hkeep1).
    destruct (IH _ _ _ _ _ Hrun) as (Hout & Hkeep & Hrest).
    split; [| split].
    + intros p Hp. rewrite (Hout p Hp). apply Hout1, Hp.
    + intros prefix x Hp Habs. apply Hkeep; [exact Hp |]. apply Hkeep1; assumption.
    + intros r' prefix [<- | Hin] Hp.
      * apply Hkeep; [exact Hp |]. apply Hown1, Hp.
      * apply Hrest; assumption.
Qed.

(** X21.  A batch that returns has changed no file outside the output
    directory, and has left none of the four intermediate files of any
    record it processed. *)
Theorem batch_leaves_no_stage_file (output_dir : string) (fs : gmap string file)
    (quality_results : list metrics) (top_n : Z)
    (processed : list refinement_result) (fs' : gmap string file) :
  process_high_quality_files output_dir fs quality_results top_n
  = Returned processed fs' ->
  (forall p, (forall name, p <> in_dir output_dir name) -> fs' !! p = fs !! p)
  /\ (forall r prefix,
        In r (py_slice quality_results 0 top_n) -> In prefix stage_prefixes ->
        fs' !! stage_path output_dir prefix (m_file r) = None).
Proof.
  unfold process_high_quality_files. intros Hrun.
  destruct (process_each_footprint _ _ _ _ _ _ _ Hrun) as (Hout & _ & Hgone).
  split; assumption.
Qed.

End Batch.

(** The two clips of the worked examples that the analysis ranks, refined
    as ranks 1 and 2. *)
Lemma batch_reports_refined_files_witness :
  let rs :=
    snd (@Analyzer.analyze_all_audio (Fixture.backend true) Fixture.disk true
           ["loud"; "long"; "silent"; "short"]
           {| audio_dir := "audio_samples"; results := [] |}) in
  exists processed fs',
    @Refiner.process_high_quality_files (Fixture.backend true) "out" Fixture.disk rs 5
    = Returned processed fs'
    /\ length processed = 2%nat
    /\ exists kept,
         sublist kept (Spec.ranked 1 (Num.py_slice rs 0 5))
         /\ Forall2 (@Spec.reports (Fixture.backend true) "out" fs') processed kept.
Proof.
  intros rs.
  set (run := @Refiner.process_high_quality_files (Fixture.backend true) "out"
                Fixture.disk rs 5).
  set (processed := match run with Returned l _ => l | Raised _ => [] end).
  set (fs' := match run with Returned _ fs' => fs' | Raised fs' => fs' end).
  assert (E : run = Returned processed fs') by (vm_compute; reflexivity).
  exists processed, fs'. split; [exact E |].
  split; [vm_compute; reflexivity |].
  exact (@batch_reports_refined_files (Fixture.backend true) "out" Fixture.disk
           rs 5 processed fs' E).
Defined.

(** The same batch: the input [long] is untouched and its stage-1 file is
    gone. *)
Lemma batch_leaves_no_stage_file_witness :
  let rs :=
    snd (@Analyzer.analyze_all_audio (Fixture.backend true) Fixture.disk true
           ["loud"; "long"; "silent"; "short"]
           {| audio_dir := "audio_samples"; results := [] |}) in
  exists processed fs',
    @Refiner.process_high_quality_files (Fixture.backend true) "out" Fixture.disk rs 5
    = Returned processed fs'
    /\ fs' !! "long" = Fixture.disk !! "long"
    /\ fs' !! "out/stage1_norm_long.wav" = None.
Proof.
  intros rs.
  set (run := @Refiner.process_high_quality_files (Fixture.backend true) "out"
                Fixture.disk rs 5).
  set (processed := match run with Returned l _ => l | Raised _ => [] end).
  set (fs' := match run with Returned _ fs' => fs' | Raised fs' => fs' end).
  assert (E : run = Returned processed fs') by (vm_compute; reflexivity).
  exists processed, fs'. split; [exact E |].
  destruct (@batch_leaves_no_stage_file (Fixture.backend true) "out" Fixture.disk
              rs 5 processed fs' E) as [Hout Hgone].
  split.
  - apply Hout. intros name. unfold Refiner.in_dir. discriminate.
  - assert (Hr : exists r,
               nth_error (Num.py_slice rs 0 5) 0 = Some r
               /\ @Refiner.stage_path (Fixture.backend true) "out" "stage1_norm_" (m_file r)
                  = "out/stage1_norm_long.wav")
      by (eexists; split; vm_compute; reflexivity).
    destruct Hr as (r & Hnth & <-).
    apply Hgone; [exact (nth_error_In _ _ Hnth) | left; reflexivity].
Defined.

(** ** The selection of the files to refine *)

Section Selection.
Import Num Analyzer Spec.
Context `{Librosa}.

Lemma py_slice_prefix {A} (l : list A) (k : Z) :
  (0 <= k)%Z -> py_slice l 0 k = firstn (Z.to_nat k) l.
Proof.
  intros Hk. unfold py_slice, slice.
  destruct (Z.ltb_spec k 0) as [Hneg | _]; [lia |].
  change (0 <? 0)%Z with false. cbv iota.
  rewrite (Z.min_l 0) by lia. change (Z.to_nat 0) with 0%nat.
  rewrite Nat.sub_0_r. change (skipn 0 l) with l.
  destruct (Z.le_ge_cases k (Z.of_nat (length l))) as [Hle | Hge].
  - rewrite Z.min_l by exact Hle. reflexivity.
  - rewrite Z.min_r by exact Hge. rewrite Nat2Z.id.
    rewrite firstn_all. symmetry. apply firstn_all2. lia.
Qed.

Lemma prefix_sublist {A} (n : nat) (l : list A) : sublist (firstn n l) l.
Proof.
  revert n. induction l as [| x l IH]; intros [| n]; cbn [firstn];
    try constructor; [apply sublist_nil_l | apply IH].
Qed.

Lemma sublist_In {A} (k l : list A) :
  sublist k l -> forall y, In y k -> In y l.
Proof.
  intros Hsub. induction Hsub as [| x k l Hsub IH | x k l Hsub IH]; intros y Hy.
  - exact Hy.
  - destruct Hy as [-> | Hy]; [left; reflexivity | right; apply IH, Hy].
  - right. apply IH, Hy.
Qed.

Lemma sublist_sorted (k l : list metrics) :
  sublist k l -> by_score_desc l -> by_score_desc k.
Proof.
  unfold by_score_desc. intros Hsub. induction Hsub as [| x k l Hsub IH | x k l Hsub IH];
    intros Hl.
  - constructor.
  - apply StronglySorted_inv in Hl as [Hl Hx]. constructor; [apply IH, Hl |].
    rewrite List.Forall_forall in *. intros y Hy. apply Hx.
    exact (sublist_In _ _ Hsub y Hy).
  - apply StronglySorted_inv in Hl as [Hl _]. apply IH, Hl.
Qed.

Lemma selection_cases (ranking : list metrics) :
  let selected :=
    Pipeline.high_quality {| audio_dir := "audio_samples"; results := ranking |} ranking in
  (selected = [] <-> ranking = [])
  /\ sublist selected ranking
  /\ (List.Forall (passes 60 5 Pipeline.max_silence) selected
      \/ (List.Forall (fun r => ~ passes 60 5 Pipeline.max_silence r) ranking
          /\ selected = firstn 5 ranking)).
Proof.
  cbv zeta. unfold Pipeline.high_quality, filter_high_quality. cbn [snd results].
  rewrite (append_loop (keeps 60 5 Pipeline.max_silence)). cbn [app].
  destruct (List.filter (keeps 60 5 Pipeline.max_silence) ranking) as [| x kept] eqn:E.
  - rewrite py_slice_prefix by lia. change (Z.to_nat 5) with 5%nat.
    split; [| split; [apply prefix_sublist | right; split; [| reflexivity]]].
    + destruct ranking; cbn [firstn]; split; congruence.
    + apply List.Forall_forall. intros r Hr Hp. apply keeps_passes in Hp.
      assert (Hin : In r (List.filter (keeps 60 5 Pipeline.max_silence) ranking))
        by (apply filter_In; split; assumption).
      rewrite E in Hin. destruct Hin.
  - rewrite <- E. split; [| split; [apply filter_sublist | left]].
    + split; [rewrite E; discriminate | intros ->; discriminate E].
    + apply List.Forall_forall. intros r Hr. apply filter_In in Hr as [_ Hr].
      apply keeps_passes. exact Hr.
Qed.

(** X22.  Step 2 of the pipeline, run on what a fresh analyzer returns:
    the selection is empty only when the analysis returned nothing; it is a
    sub-list of the ranking, in descending order of score; and either all
    of it passes the three thresholds (score 60, duration 5 s, silence
    ratio 0.4), or no analysed record passes them and the selection is the
    first five records of the ranking. *)
Theorem selection_is_ranked_and_not_empty (fs : gmap string file)
    (dir_exists : bool) (audio_files : list string) :
  let fresh := {| audio_dir := "audio_samples"; results := [] |} in
  let analyzer := fst (analyze_all_audio fs dir_exists audio_files fresh) in
  let quality_results := snd (analyze_all_audio fs dir_exists audio_files fresh) in
  let selected := Pipeline.high_quality analyzer quality_results in
  (selected = [] <-> quality_results = [])
  /\ sublist selected quality_results
  /\ by_score_desc selected
  /\ (List.Forall (passes 60 5 Pipeline.max_silence) selected
      \/ (List.Forall (fun r => ~ passes 60 5 Pipeline.max_silence r) quality_results
          /\ selected = firstn 5 quality_results)).
Proof.
  cbv zeta. unfold analyze_all_audio.
  assert (Hall : forall ranking, by_score_desc ranking ->
            let selected :=
              Pipeline.high_quality
                {| audio_dir := "audio_samples"; results := ranking |} ranking in
            (selected = [] <-> ranking = [])
            /\ sublist selected ranking
            /\ by_score_desc selected
            /\ (List.Forall (passes 60 5 Pipeline.max_silence) selected
                \/ (List.Forall (fun r => ~ passes 60 5 Pipeline.max_silence r) ranking
                    /\ selected = firstn 5 ranking))).
  { intros ranking Hsorted. destruct (selection_cases ranking) as (Hiff & Hsub & Hcases).
    split; [exact Hiff |]. split; [exact Hsub |]. split; [| exact Hcases].
    exact (sublist_sorted _ ranking Hsub Hsorted). }
  destruct dir_exists; cbn [negb fst snd results audio_dir].
  - apply Hall, sort_by_score_sorted.
  - apply Hall. constructor.
Qed.

End Selection.
